(** * Phaser game objects: [Phaser.Text] and [Phaser.Events]

    A shallow embedding of [src/gameobjects/Text.js] and
    [src/gameobjects/Events.js], and the properties of the update cycle,
    the property setters, the constructors and the destroy routines; the
    [angle] property is followed through the rounding of binary64. *)

From Stdlib Require Import Bool List String Arith ZArith Lia.
From Stdlib Require Import Floats.
Import ListNotations.

Set Implicit Arguments.

(** ** JavaScript values

    Fields of a JavaScript object hold any value of the language.  Numbers
    are IEEE 754 binary64, here the kernel's primitive floats; an object is
    known by its reference only. *)

Module JS.

Inductive value : Type :=
  | Undefined
  | Null
  | Boolean (b : bool)
  | Number (f : float)
  | String (s : string)
  | Object (ref : nat).

  (** The number literals that occur in the sources. *)
Definition num_0 : value := Number 0%float.
Definition num_1 : value := Number 1%float.
Definition num_neg1 : value := Number (-1)%float.
Definition NaN : value := Number nan.
Definition empty_string : value := String EmptyString.

  (** [ToBoolean] (ES5 9.2): [undefined], [null], [false], [+0], [-0], [NaN]
      and the empty string are falsy, everything else is truthy. *)
Definition ToBoolean (v : value) : bool :=
    match v with
    | Undefined | Null => false
    | Boolean b => b
    | Number f => negb (PrimFloat.eqb f 0%float || is_nan f)
    | String s => negb (String.eqb s EmptyString)
    | Object _ => true
    end.

  (** [a || b] evaluates to [a] when [a] is truthy and to [b] otherwise. *)
Definition or (a b : value) : value := if ToBoolean a then a else b.

Definition is_NaN (v : value) : bool :=
    match v with
    | Number f => is_nan f
    | _ => false
    end.

  (** Strict equality [a === b] (ES5 11.9.6): no conversion; [NaN] differs
      from itself, [+0] equals [-0], objects are compared by reference. *)
Definition strict_eq (a b : value) : bool :=
    match a, b with
    | Undefined, Undefined => true
    | Null, Null => true
    | Boolean p, Boolean q => Bool.eqb p q
    | Number x, Number y => PrimFloat.eqb x y
    | String s, String t => String.eqb s t
    | Object r, Object r' => Nat.eqb r r'
    | _, _ => false
    end.

Definition strict_neq (a b : value) : bool := negb (strict_eq a b).

  (** Abstract equality [a == b] (ES5 11.9.3) converts its operands.  The
      two conversions that run code outside this repository are taken as
      parameters: [StringToNumber] reads a string as a numeric literal
      (ES5 9.3.1) and [ToPrimitive] is an object's default value (ES5 8.12.8).  *)
Section AbstractEquality.

Variable StringToNumber : string -> float.
Variable ToPrimitive : nat -> value.

Definition bool_to_number (b : bool) : float :=
      if b then 1%float else 0%float.

    (** Steps 1 to 7 and 10 of the algorithm, on two primitive values.  A
        boolean operand is first replaced by its number (steps 6 and 7). *)
Definition prim_eq (a b : value) : bool :=
      let unbool v := match v with Boolean p => Number (bool_to_number p) | _ => v end in
      match unbool a, unbool b with
      | Undefined, Undefined | Undefined, Null
      | Null, Undefined | Null, Null => true
      | Number x, Number y => PrimFloat.eqb x y
      | String s, String t => String.eqb s t
      | Number x, String t => PrimFloat.eqb x (StringToNumber t)
      | String s, Number y => PrimFloat.eqb (StringToNumber s) y
      | _, _ => false
      end.

    (** Steps 8 and 9 replace an object that meets a string, a number or a
        boolean by its primitive value; two objects are equal when they are
        the same object, and an object never equals [undefined] or [null]. *)
Definition loose_eq (a b : value) : bool :=
      match a, b with
      | Object r, Object r' => Nat.eqb r r'
      | Object _, (Undefined | Null) | (Undefined | Null), Object _ => false
      | Object r, _ => prim_eq (ToPrimitive r) b
      | _, Object r => prim_eq a (ToPrimitive r)
      | _, _ => prim_eq a b
      end.

Definition loose_neq (a b : value) : bool := negb (loose_eq a b).

End AbstractEquality.

End JS.

(** ** Calls to collaborators and faults

    The code talks to objects whose code is elsewhere: its group, the DOM
    node that holds its canvas, the PIXI text it extends, its signals.  A
    method's outcome keeps the calls it made to them, in order; what a
    collaborator does inside is not modelled.  A method faults when it reads
    a property of [null]: JavaScript throws a [TypeError] there and the
    statements that follow do not run.  It also faults when a collaborator
    throws; the group, the DOM and the PIXI text are taken to return, a
    signal's [dispose()] may throw. *)

Module Member.

  (** The signal members of a [Phaser.Events]. *)
Inductive t : Type :=
  | onAddedToGroup | onRemovedFromGroup | onKilled | onRevived | onOutOfBounds
  | onInputOver | onInputOut | onInputDown | onInputUp | onDragStart | onDragStop
  | onAnimationStart | onAnimationComplete | onAnimationLoop.

End Member.

Module Effect.

Inductive call : Type :=
  | Group_remove (group : nat)        (* group.remove(this) *)
  | Node_removeChild (parent : nat)   (* parentNode.removeChild(canvas) *)
  | Text_setText (text : JS.value)    (* this.setText(value) *)
  | Text_setStyle (style : JS.value)  (* this.setStyle(value) *)
  | Signal_dispose (m : Member.t).    (* this.<m>.dispose() *)

Inductive error : Type :=
  | TypeError (property : string)     (* Cannot read property ... of null *)
  | Thrown (c : call).                (* the collaborator threw *)

Inductive outcome (A : Type) : Type :=
  | Returns (a : A) (calls : list call)
  | Throws (e : error) (calls : list call).

Arguments Throws {A} e calls.

Definition ret {A} (a : A) : outcome A := Returns a [].

Definition throw {A} (e : error) : outcome A := Throws e [].

Definition invoke (c : call) : outcome unit := Returns tt [c].

Definition bind {A B} (m : outcome A) (k : A -> outcome B) : outcome B :=
    match m with
    | Returns a calls =>
        match k a with
        | Returns b calls' => Returns b (calls ++ calls')
        | Throws e calls' => Throws e (calls ++ calls')
        end
    | Throws e calls => Throws e calls
    end.

Definition calls_of {A} (m : outcome A) : list call :=
    match m with
    | Returns _ calls | Throws _ calls => calls
    end.

Definition returned {A} (m : outcome A) : bool :=
    match m with
    | Returns _ _ => true
    | Throws _ _ => false
    end.

End Effect.

Import Effect.

Declare Scope effect_scope.
Delimit Scope effect_scope with effect.
Notation "x <- m ;; k" := (bind m (fun x => k))
  (at level 100, m at next level, right associativity) : effect_scope.
Notation "m ;; k" := (bind m (fun _ => k))
  (at level 100, right associativity) : effect_scope.

(** ** [Phaser.Text] *)

Module Point.

(** A [Phaser.Point]: a mutable pair of coordinates. *)
Record t : Type := mk { x : JS.value; y : JS.value }.

Definition set_x (v : JS.value) (p : t) : t := mk v (y p).
Definition set_y (v : JS.value) (p : t) : t := mk (x p) v.

End Point.

Module Cache.

(** The [_cache] object of a text: the dirty flag, the transform cache, the
    previous calculated position and the scale values. *)
Record t : Type := mk {
  dirty : bool;
  a00 : JS.value;
  a01 : JS.value;
  a02 : JS.value;
  a10 : JS.value;
  a11 : JS.value;
  a12 : JS.value;
  id : JS.value;
  x : JS.value;
  y : JS.value;
  scaleX : JS.value;
  scaleY : JS.value
}.

Definition set_dirty (b : bool) (c : t) : t :=
  mk b (a00 c) (a01 c) (a02 c) (a10 c) (a11 c) (a12 c) (id c) (x c) (y c)
     (scaleX c) (scaleY c).

Definition set_x (v : JS.value) (c : t) : t :=
  mk (dirty c) (a00 c) (a01 c) (a02 c) (a10 c) (a11 c) (a12 c) (id c) v (y c)
     (scaleX c) (scaleY c).

Definition set_y (v : JS.value) (c : t) : t :=
  mk (dirty c) (a00 c) (a01 c) (a02 c) (a10 c) (a11 c) (a12 c) (id c) (x c) v
     (scaleX c) (scaleY c).

End Cache.

Module Canvas.

(** The canvas element a text draws on; [parentNode] is the DOM node it is
    attached to, if any. *)
Record t : Type := mk { parentNode : option nat }.

End Canvas.

Module Surface.

(** What [PIXI.Text.call(this, text, style)] leaves on [this], as far as
    [Phaser.Text] reads or writes it afterwards. *)
Record t : Type := mk {
  position : Point.t;
  rotation : JS.value;
  canvas : option Canvas.t;
  context : JS.value
}.

End Surface.

Module Text.

Record t : Type := mk {
  game : JS.value;
  exists_ : bool;
  alive : bool;
  group : option nat;
  name : JS.value;
  type : JS.value;
  _text : JS.value;
  _style : JS.value;
  position : Point.t;         (* inherited from PIXI.Text *)
  rotation : JS.value;        (* inherited from PIXI.Text *)
  canvas : option Canvas.t;   (* inherited from PIXI.Text *)
  context : JS.value;         (* inherited from PIXI.Text *)
  x : JS.value;
  y : JS.value;
  anchor : Point.t;
  scale : Point.t;
  _cache : Cache.t;
  renderable : bool
}.

Definition set_exists (v : bool) (n : t) : t :=
  mk (game n) v (alive n) (group n) (name n) (type n) (_text n) (_style n)
     (position n) (rotation n) (canvas n) (context n) (x n) (y n) (anchor n)
     (scale n) (_cache n) (renderable n).

Definition set_group (v : option nat) (n : t) : t :=
  mk (game n) (exists_ n) (alive n) v (name n) (type n) (_text n) (_style n)
     (position n) (rotation n) (canvas n) (context n) (x n) (y n) (anchor n)
     (scale n) (_cache n) (renderable n).

Definition set__text (v : JS.value) (n : t) : t :=
  mk (game n) (exists_ n) (alive n) (group n) (name n) (type n) v (_style n)
     (position n) (rotation n) (canvas n) (context n) (x n) (y n) (anchor n)
     (scale n) (_cache n) (renderable n).

Definition set__style (v : JS.value) (n : t) : t :=
  mk (game n) (exists_ n) (alive n) (group n) (name n) (type n) (_text n) v
     (position n) (rotation n) (canvas n) (context n) (x n) (y n) (anchor n)
     (scale n) (_cache n) (renderable n).

Definition set_position (v : Point.t) (n : t) : t :=
  mk (game n) (exists_ n) (alive n) (group n) (name n) (type n) (_text n)
     (_style n) v (rotation n) (canvas n) (context n) (x n) (y n) (anchor n)
     (scale n) (_cache n) (renderable n).

Definition set_rotation (v : JS.value) (n : t) : t :=
  mk (game n) (exists_ n) (alive n) (group n) (name n) (type n) (_text n)
     (_style n) (position n) v (canvas n) (context n) (x n) (y n) (anchor n)
     (scale n) (_cache n) (renderable n).

Definition set_canvas (v : option Canvas.t) (n : t) : t :=
  mk (game n) (exists_ n) (alive n) (group n) (name n) (type n) (_text n)
     (_style n) (position n) (rotation n) v (context n) (x n) (y n) (anchor n)
     (scale n) (_cache n) (renderable n).

Definition set_context (v : JS.value) (n : t) : t :=
  mk (game n) (exists_ n) (alive n) (group n) (name n) (type n) (_text n)
     (_style n) (position n) (rotation n) (canvas n) v (x n) (y n) (anchor n)
     (scale n) (_cache n) (renderable n).

Definition set_x (v : JS.value) (n : t) : t :=
  mk (game n) (exists_ n) (alive n) (group n) (name n) (type n) (_text n)
     (_style n) (position n) (rotation n) (canvas n) (context n) v (y n)
     (anchor n) (scale n) (_cache n) (renderable n).

Definition set_y (v : JS.value) (n : t) : t :=
  mk (game n) (exists_ n) (alive n) (group n) (name n) (type n) (_text n)
     (_style n) (position n) (rotation n) (canvas n) (context n) (x n) v
     (anchor n) (scale n) (_cache n) (renderable n).

Definition set__cache (v : Cache.t) (n : t) : t :=
  mk (game n) (exists_ n) (alive n) (group n) (name n) (type n) (_text n)
     (_style n) (position n) (rotation n) (canvas n) (context n) (x n) (y n)
     (anchor n) (scale n) v (renderable n).

Section Methods.

(** The host's conversions behind [!=]. *)
Variable StringToNumber : string -> float.
Variable ToPrimitive : nat -> JS.value.

(** [PIXI.Text] and the constant [Phaser.TEXT] are declared in other files
    than [Text.js] and [Events.js]. *)
Variable PIXI_Text : JS.value -> JS.value -> Surface.t.
Variable Phaser_TEXT : JS.value.

(** [Phaser.Math.radToDeg] and [Phaser.Math.degToRad], also declared
    elsewhere. *)
Variable radToDeg : JS.value -> JS.value.
Variable degToRad : JS.value -> JS.value.

(** [Phaser.Text = function (game, x, y, text, style)].  An argument that
    the caller leaves out is [undefined]. *)
Definition constructor (game x y text style : JS.value) : t :=
  let x := JS.or x JS.num_0 in
  let y := JS.or y JS.num_0 in
  let text := JS.or text JS.empty_string in
  let style := JS.or style JS.empty_string in
  let surface := PIXI_Text text style in
  (* this.position.x = this.x = x; this.position.y = this.y = y; *)
  let position := Point.set_y y (Point.set_x x (Surface.position surface)) in
  let anchor := Point.mk JS.num_0 JS.num_0 in
  let scale := Point.mk JS.num_1 JS.num_1 in
  let cache :=
    Cache.mk false JS.num_1 JS.num_0 x JS.num_0 JS.num_1 y JS.num_1
             JS.num_neg1 JS.num_neg1 JS.num_1 JS.num_1 in
  (* this._cache.x = this.x; this._cache.y = this.y; *)
  let cache := Cache.set_y y (Cache.set_x x cache) in
  mk game true true None JS.empty_string Phaser_TEXT text style
     position (Surface.rotation surface) (Surface.canvas surface)
     (Surface.context surface) x y anchor scale cache true.

(** [Phaser.Text.prototype.update] *)
Definition update (this : t) : t :=
  if negb (exists_ this) then this
  else
    let this := set__cache (Cache.set_dirty false (_cache this)) this in
    let this := set__cache (Cache.set_x (x this) (_cache this)) this in
    let this := set__cache (Cache.set_y (y this) (_cache this)) this in
    if JS.loose_neq StringToNumber ToPrimitive
         (Point.x (position this)) (Cache.x (_cache this))
       || JS.loose_neq StringToNumber ToPrimitive
            (Point.y (position this)) (Cache.y (_cache this))
    then
      let this :=
        set_position (Point.set_x (Cache.x (_cache this)) (position this)) this in
      let this :=
        set_position (Point.set_y (Cache.y (_cache this)) (position this)) this in
      set__cache (Cache.set_dirty true (_cache this)) this
    else this.

(** [Phaser.Text.prototype.destroy].  [this.canvas.parentNode] faults when
    [canvas] is [null].  [removeChild] is the DOM's: the child it removes has
    no parent afterwards. *)
Definition destroy (this : t) : outcome t :=
  (_ <- match group this with
        | Some g => invoke (Group_remove g)
        | None => ret tt
        end ;;
   this <- match canvas this with
           | None => throw (TypeError "parentNode")
           | Some c =>
               match Canvas.parentNode c with
               | Some parent =>
                   _ <- invoke (Node_removeChild parent) ;;
                   ret (set_canvas (Some (Canvas.mk None)) this)
               | None =>
                   let this := set_canvas None this in
                   ret (set_context JS.Null this)
               end
           end ;;
   let this := set_exists false this in
   ret (set_group None this))%effect.

(** The [angle] property. *)
Definition get_angle (this : t) : JS.value := radToDeg (rotation this).

Definition set_angle (value : JS.value) (this : t) : t :=
  set_rotation (degToRad value) this.

(** The [content] property. *)
Definition get_content (this : t) : JS.value := _text this.

Definition set_content (value : JS.value) (this : t) : outcome t :=
  (if JS.strict_neq value (_text this)
   then
     let this := set__text value this in
     _ <- invoke (Text_setText value) ;;
     ret this
   else ret this)%effect.

(** The [font] property. *)
Definition get_font (this : t) : JS.value := _style this.

Definition set_font (value : JS.value) (this : t) : outcome t :=
  (if JS.strict_neq value (_style this)
   then
     let this := set__style value this in
     _ <- invoke (Text_setStyle value) ;;
     ret this
   else ret this)%effect.

End Methods.

End Text.

(** ** [Phaser.Events] *)

Module Signal.

(** Modelled from the spec: [Phaser.Signal], the signal channel, is declared
    in another file than [Events.js].  A signal is live until it is disposed
    of, and a new signal is live. *)
Record t : Type := mk { disposed : bool }.

Definition new : t := mk false.

(** Modelled from the spec: [Phaser.Signal.prototype.dispose] is declared in
    another file than [Events.js].  It makes the channel permanently inert:
    it clears what the signal refers to.  A second [destroy()] of a hub
    faults, and [destroy] itself reads nothing that it cleared: it is
    [dispose()], called on a signal that is disposed of already, that
    dereferences what the first call cleared and throws. *)
Definition dispose (s : t) : option t :=
  if disposed s then None else Some (mk true).

End Signal.

Module Events.

Record t : Type := mk {
  parent : JS.value;
  onAddedToGroup : option Signal.t;
  onRemovedFromGroup : option Signal.t;
  onKilled : option Signal.t;
  onRevived : option Signal.t;
  onOutOfBounds : option Signal.t;
  onInputOver : option Signal.t;
  onInputOut : option Signal.t;
  onInputDown : option Signal.t;
  onInputUp : option Signal.t;
  onDragStart : option Signal.t;
  onDragStop : option Signal.t;
  onAnimationStart : option Signal.t;
  onAnimationComplete : option Signal.t;
  onAnimationLoop : option Signal.t
}.

(** [this.<m>] *)
Definition get (m : Member.t) (this : t) : option Signal.t :=
  match m with
  | Member.onAddedToGroup => onAddedToGroup this
  | Member.onRemovedFromGroup => onRemovedFromGroup this
  | Member.onKilled => onKilled this
  | Member.onRevived => onRevived this
  | Member.onOutOfBounds => onOutOfBounds this
  | Member.onInputOver => onInputOver this
  | Member.onInputOut => onInputOut this
  | Member.onInputDown => onInputDown this
  | Member.onInputUp => onInputUp this
  | Member.onDragStart => onDragStart this
  | Member.onDragStop => onDragStop this
  | Member.onAnimationStart => onAnimationStart this
  | Member.onAnimationComplete => onAnimationComplete this
  | Member.onAnimationLoop => onAnimationLoop this
  end.

(** [this.<m> = v] *)
Definition set (m : Member.t) (v : option Signal.t) (this : t) : t :=
  let 'mk p s1 s2 s3 s4 s5 i1 i2 i3 i4 i5 i6 a1 a2 a3 := this in
  match m with
  | Member.onAddedToGroup => mk p v s2 s3 s4 s5 i1 i2 i3 i4 i5 i6 a1 a2 a3
  | Member.onRemovedFromGroup => mk p s1 v s3 s4 s5 i1 i2 i3 i4 i5 i6 a1 a2 a3
  | Member.onKilled => mk p s1 s2 v s4 s5 i1 i2 i3 i4 i5 i6 a1 a2 a3
  | Member.onRevived => mk p s1 s2 s3 v s5 i1 i2 i3 i4 i5 i6 a1 a2 a3
  | Member.onOutOfBounds => mk p s1 s2 s3 s4 v i1 i2 i3 i4 i5 i6 a1 a2 a3
  | Member.onInputOver => mk p s1 s2 s3 s4 s5 v i2 i3 i4 i5 i6 a1 a2 a3
  | Member.onInputOut => mk p s1 s2 s3 s4 s5 i1 v i3 i4 i5 i6 a1 a2 a3
  | Member.onInputDown => mk p s1 s2 s3 s4 s5 i1 i2 v i4 i5 i6 a1 a2 a3
  | Member.onInputUp => mk p s1 s2 s3 s4 s5 i1 i2 i3 v i5 i6 a1 a2 a3
  | Member.onDragStart => mk p s1 s2 s3 s4 s5 i1 i2 i3 i4 v i6 a1 a2 a3
  | Member.onDragStop => mk p s1 s2 s3 s4 s5 i1 i2 i3 i4 i5 v a1 a2 a3
  | Member.onAnimationStart => mk p s1 s2 s3 s4 s5 i1 i2 i3 i4 i5 i6 v a2 a3
  | Member.onAnimationComplete => mk p s1 s2 s3 s4 s5 i1 i2 i3 i4 i5 i6 a1 v a3
  | Member.onAnimationLoop => mk p s1 s2 s3 s4 s5 i1 i2 i3 i4 i5 i6 a1 a2 v
  end.

Definition set_parent (v : JS.value) (this : t) : t :=
  let 'mk _ s1 s2 s3 s4 s5 i1 i2 i3 i4 i5 i6 a1 a2 a3 := this in
  mk v s1 s2 s3 s4 s5 i1 i2 i3 i4 i5 i6 a1 a2 a3.

(** [Phaser.Events = function (sprite)] *)
Definition constructor (sprite : JS.value) : t :=
  mk sprite
     (Some Signal.new) (Some Signal.new) (Some Signal.new) (Some Signal.new)
     (Some Signal.new)
     None None None None None None
     None None None.

(** The three groups of members. *)
Definition fixed_members : list Member.t :=
  [Member.onAddedToGroup; Member.onRemovedFromGroup; Member.onKilled;
   Member.onRevived; Member.onOutOfBounds].

Definition input_members : list Member.t :=
  [Member.onInputOver; Member.onInputOut; Member.onInputDown;
   Member.onInputUp; Member.onDragStart; Member.onDragStop].

Definition animation_members : list Member.t :=
  [Member.onAnimationStart; Member.onAnimationComplete;
   Member.onAnimationLoop].

(** Modelled from the spec: the code that enables the input signals is in
    another file than [Events.js]; it creates all six input signals
    together. *)
Definition enable_input (this : t) : t :=
  fold_left (fun h m => set m (Some Signal.new) h) input_members this.

(** Modelled from the spec: the code that enables the animation signals is
    in another file than [Events.js]; it creates all three animation signals
    together. *)
Definition enable_animation (this : t) : t :=
  fold_left (fun h m => set m (Some Signal.new) h) animation_members this.

(** [if (this.<m>)]: a member is either [null] or a signal, an object. *)
Definition truthy (m : Member.t) (this : t) : bool :=
  match get m this with
  | Some _ => true
  | None => false
  end.

Section Methods.

(** [Phaser.Signal.prototype.dispose], declared elsewhere: the signal as the
    call leaves it, or nothing when the call throws. *)
Variable Signal_prototype_dispose : Signal.t -> option Signal.t.

(** [this.<m>.dispose()]: faults when the member is [null]. *)
Definition dispose (m : Member.t) (this : t) : outcome t :=
  match get m this with
  | None => throw (TypeError "dispose")
  | Some s =>
      match Signal_prototype_dispose s with
      | Some s' => Returns (set m (Some s') this) [Signal_dispose m]
      | None => Throws (Thrown (Signal_dispose m)) [Signal_dispose m]
      end
  end.

(** [Phaser.Events.prototype.destroy] *)
Definition destroy (this : t) : outcome t :=
  (let this := set_parent JS.Null this in
   this <- dispose Member.onAddedToGroup this ;;
   this <- dispose Member.onRemovedFromGroup this ;;
   this <- dispose Member.onKilled this ;;
   this <- dispose Member.onRevived this ;;
   this <- dispose Member.onOutOfBounds this ;;
   this <- (if truthy Member.onInputOver this
            then
              this <- dispose Member.onInputOver this ;;
              this <- dispose Member.onInputOut this ;;
              this <- dispose Member.onInputDown this ;;
              this <- dispose Member.onInputUp this ;;
              this <- dispose Member.onDragStart this ;;
              dispose Member.onDragStop this
            else ret this) ;;
   if truthy Member.onAnimationStart this
   then
     this <- dispose Member.onAnimationStart this ;;
     this <- dispose Member.onAnimationComplete this ;;
     dispose Member.onAnimationLoop this
   else ret this)%effect.

End Methods.

(** The members [destroy()] goes through on a hub, in order. *)
Definition disposed_members (h : t) : list Member.t :=
  fixed_members
  ++ (if truthy Member.onInputOver h then input_members else [])
  ++ (if truthy Member.onAnimationStart h then animation_members else []).

(** The number of [dispose()] calls among the calls of an outcome. *)
Definition is_dispose (c : call) : bool :=
  match c with
  | Signal_dispose _ => true
  | _ => false
  end.

Definition disposals {A} (o : outcome A) : nat :=
  List.length (filter is_dispose (calls_of o)).

(** A group is present when each of its members is a signal, absent when
    each is [null]. *)
Definition present (ms : list Member.t) (this : t) : bool :=
  forallb (fun m => truthy m this) ms.

Definition absent (ms : list Member.t) (this : t) : bool :=
  forallb (fun m => negb (truthy m this)) ms.

(** The invariant of the data model: the five fixed signals are there, and
    each optional group is entirely present or entirely absent. *)
Definition well_formed (this : t) : bool :=
  present fixed_members this
  && (present input_members this || absent input_members this)
  && (present animation_members this || absent animation_members this).

End Events.

(** ** [Phaser.Math]: degrees and radians *)

Module Math.

Section Conversions.

Variable StringToNumber : string -> float.
Variable ToPrimitive : nat -> JS.value.

(** [ToNumber] (ES5 9.3), which [*] applies to its operands. *)
Definition ToNumber_primitive (v : JS.value) : float :=
  match v with
  | JS.Undefined => nan
  | JS.Null => 0%float
  | JS.Boolean b => JS.bool_to_number b
  | JS.Number f => f
  | JS.String s => StringToNumber s
  | JS.Object _ => nan
  end.

Definition ToNumber (v : JS.value) : float :=
  match v with
  | JS.Object r => ToNumber_primitive (ToPrimitive r)
  | _ => ToNumber_primitive v
  end.

(** [Math.PI], the number of binary64 that is nearest to pi. *)
Definition PI : float := 0x1.921fb54442d18p+1%float.

(** Modelled from the spec: the factor of [Phaser.Math.degToRad], which is
    declared in another file than [Text.js].  The conversions of the math
    collaborator are pure numeric conversions without state: degrees are
    multiplied by pi / 180, the factor computed in binary64, as JavaScript
    computes [Math.PI / 180]. *)
Definition degreeToRadiansFactor : float := (PI / 180)%float.

(** Modelled from the spec: the factor of [Phaser.Math.radToDeg], likewise:
    radians are multiplied by 180 / pi, as JavaScript computes
    [180 / Math.PI]. *)
Definition radianToDegreesFactor : float := (180 / PI)%float.

(** Modelled from the spec: [Phaser.Math.degToRad (degrees)], the product
    [degrees * degreeToRadiansFactor]. *)
Definition degToRad (degrees : JS.value) : JS.value :=
  JS.Number (ToNumber degrees * degreeToRadiansFactor)%float.

(** Modelled from the spec: [Phaser.Math.radToDeg (radians)], the product
    [radians * radianToDegreesFactor]. *)
Definition radToDeg (radians : JS.value) : JS.value :=
  JS.Number (ToNumber radians * radianToDegreesFactor)%float.

End Conversions.

(** The two factors, written out: 5030569068109113 * 2 ^ -58 and
    8063664102031864 * 2 ^ -47. *)
Definition degreeToRadiansFactor_SF : spec_float :=
  S754_finite false 5030569068109113 (-58).

Definition radianToDegreesFactor_SF : spec_float :=
  S754_finite false 8063664102031864 (-47).

(** The number a finite [x] stands for, in units of [2 ^ -1074], the least
    positive number of binary64; a zero stands for 0. *)
Definition SF2Z (x : spec_float) : Z :=
  match x with
  | S754_finite s m e => cond_Zopp s (Zpos m * 2 ^ (e + 1074))%Z
  | _ => 0%Z
  end.

(** [a] is within floating-point tolerance of [b]: both are numbers and
    [|a - b| <= 2 ^ -50 * |b| + 2 ^ -1068], or both are the same infinity.
    [NaN] is within tolerance of nothing, itself included.  The relative
    part allows a few units in the last place; the absolute part, six bits
    above the least positive number, matters only next to zero. *)
Definition within_tolerance (a b : float) : bool :=
  match Prim2SF a, Prim2SF b with
  | S754_nan, _ | _, S754_nan => false
  | S754_infinity s, S754_infinity s' => Bool.eqb s s'
  | S754_infinity _, _ | _, S754_infinity _ => false
  | x, y =>
      (2 ^ 50 * Z.abs (SF2Z x - SF2Z y) <=? Z.abs (SF2Z y) + 2 ^ 56)%Z
  end.

End Math.

(** ** Rounding in binary64

    [SpecFloat] rounds a product by shifting its mantissa to the right, one
    bit at a time, and keeping the last bit shifted out and whether any
    bit before it was set. *)

Module Rounding.

(** After [k] shifts of the mantissa [M]: what is left of the mantissa,
    the remainder that was shifted out, and what the two flags of the
    record say of the remainder, compared to half of [2 ^ k]. *)
Definition shr_inv (M k : Z) (mrs : shr_record) : Prop :=
  (0 <= shr_m mrs
   /\ 0 <= M - shr_m mrs * 2 ^ k < 2 ^ k
   /\ match shr_r mrs, shr_s mrs with
      | false, false => M - shr_m mrs * 2 ^ k = 0
      | false, true =>
          0 < M - shr_m mrs * 2 ^ k /\ 2 * (M - shr_m mrs * 2 ^ k) < 2 ^ k
      | true, false => 2 * (M - shr_m mrs * 2 ^ k) = 2 ^ k
      | true, true => 2 * (M - shr_m mrs * 2 ^ k) > 2 ^ k
      end)%Z.

End Rounding.

(** ** Sample objects *)

Module Examples.

(** A host whose strings are no numeric literals and whose objects print as
    plain objects do. *)
Definition StringToNumber (s : string) : float := nan.

Definition ToPrimitive (ref : nat) : JS.value := JS.String "[object Object]".

(** A PIXI text as it is before it is put on a stage: at the origin, not
    rotated, with a canvas of its own that has no parent yet. *)
Definition PIXI_Text (text style : JS.value) : Surface.t :=
  Surface.mk (Point.mk JS.num_0 JS.num_0) JS.num_0
             (Some (Canvas.mk None)) (JS.Object 2).

Definition Phaser_TEXT : JS.value := JS.Number 4%float.

(** [new Phaser.Text(game, 10, 20, 'hi', style)] *)
Definition hi : Text.t :=
  Text.constructor PIXI_Text Phaser_TEXT (JS.Object 1)
    (JS.Number 10%float) (JS.Number 20%float) (JS.String "hi") (JS.Object 3).

(** [hi.x = 50] *)
Definition hi_moved : Text.t := Text.set_x (JS.Number 50%float) hi.

(** [hi.x = 0 / 0] *)
Definition hi_lost : Text.t := Text.set_x JS.NaN hi.

(** [hi.x = 50; hi.exists = false] *)
Definition hi_hidden : Text.t := Text.set_exists false hi_moved.

(** [hi] in group 5, its canvas attached to DOM node 7. *)
Definition hi_on_page : Text.t :=
  Text.set_canvas (Some (Canvas.mk (Some 7))) (Text.set_group (Some 5) hi).

(** Two signal channels.  The first keeps to the contract of the spec and
    no more: [dispose()] makes the channel inert.  The second throws when
    it is disposed of twice. *)
Definition dispose (s : Signal.t) : option Signal.t := Some (Signal.mk true).

Definition dispose_once (s : Signal.t) : option Signal.t :=
  if Signal.disposed s then None else Some (Signal.mk true).

(** [new Phaser.Events(sprite)], bare and with both optional groups. *)
Definition hub : Events.t := Events.constructor (JS.Object 1).

Definition hub_full : Events.t :=
  Events.enable_animation (Events.enable_input hub).

End Examples.

(** * Properties *)

(** ** Equality of values *)

Lemma loose_eq_refl S P (v : JS.value) :
  JS.is_NaN v = false -> JS.loose_eq S P v v = true.
Proof.
  destruct v as [ | | b | f | s | r ]; cbn; intros H; try reflexivity.
  - destruct b; reflexivity.
  - unfold is_nan in H. now apply negb_false_iff in H.
  - apply String.eqb_refl.
  - apply Nat.eqb_refl.
Qed.

(** ** The update cycle of a text *)

Section Update.

Variable StringToNumber : string -> float.
Variable ToPrimitive : nat -> JS.value.

Local Abbreviation update := (Text.update StringToNumber ToPrimitive).
Local Abbreviation differs := (JS.loose_neq StringToNumber ToPrimitive).
Local Abbreviation same := (JS.loose_eq StringToNumber ToPrimitive).

(** What [update] computes on a text that exists, in one step. *)
Lemma update_exists (n : Text.t) :
  Text.exists_ n = true ->
  update n =
    let c := Cache.set_y (Text.y n) (Cache.set_x (Text.x n)
               (Cache.set_dirty false (Text._cache n))) in
    if differs (Point.x (Text.position n)) (Text.x n)
       || differs (Point.y (Text.position n)) (Text.y n)
    then Text.set__cache (Cache.set_dirty true c)
           (Text.set_position (Point.mk (Text.x n) (Text.y n)) n)
    else Text.set__cache c n.
Proof.
  intros E. unfold Text.update. rewrite E.
  destruct n as [g e a gr nm ty tx st [px py] r cv cx x y an sc c re].
  cbn. destruct (differs px x || differs py y); reflexivity.
Qed.

(** A text whose position already agrees with its coordinates, and whose
    cache already holds them, is left alone, the dirty flag apart. *)
Lemma update_settled (n : Text.t) :
  Text.exists_ n = true ->
  same (Point.x (Text.position n)) (Text.x n) = true ->
  same (Point.y (Text.position n)) (Text.y n) = true ->
  Cache.x (Text._cache n) = Text.x n ->
  Cache.y (Text._cache n) = Text.y n ->
  update n = Text.set__cache (Cache.set_dirty false (Text._cache n)) n.
Proof.
  intros E Ex Ey Cx Cy. rewrite (update_exists n E). cbv zeta.
  unfold JS.loose_neq. rewrite Ex, Ey. cbn [negb orb].
  rewrite <- Cx, <- Cy. destruct (Text._cache n); reflexivity.
Qed.

(** C1, as the code has it: on a text that exists, [update()] leaves
    [_cache.dirty] true if and only if [position.x != this.x] or
    [position.y != this.y] held when it was called, where [this.x] and
    [this.y] are the text's own coordinates, which it has just copied to
    [_cache.x] and [_cache.y]; otherwise [_cache.dirty] is false.  What
    [_cache.x] and [_cache.y] held before the call plays no part. *)
Theorem update_dirty_iff_position_differs_from_xy (n : Text.t) :
  Text.exists_ n = true ->
  Cache.dirty (Text._cache (update n)) =
    differs (Point.x (Text.position n)) (Text.x n)
    || differs (Point.y (Text.position n)) (Text.y n).
Proof.
  intros E. rewrite (update_exists n E).
  destruct (differs (Point.x (Text.position n)) (Text.x n)
            || differs (Point.y (Text.position n)) (Text.y n)); reflexivity.
Qed.

(** C3: on a text with [exists = false], [update()] changes nothing: the
    text after the call is the text before it, field by field. *)
Theorem update_not_exists_unchanged (n : Text.t) :
  Text.exists_ n = false -> update n = n.
Proof.
  intros E. unfold Text.update. now rewrite E.
Qed.

(** C7: on a text that exists, [update()] writes [_cache.dirty], [_cache.x],
    [_cache.y], [position.x] and [position.y] only: every other member of
    the text and every other member of its cache, the transform cache
    [a00] ... [id] and the scale cache among them, is as it was. *)
Theorem update_frame (n : Text.t) :
  Text.exists_ n = true ->
  let n' := update n in
  let c := Text._cache n in
  let c' := Text._cache n' in
  (Text.game n' = Text.game n /\ Text.exists_ n' = Text.exists_ n /\
   Text.alive n' = Text.alive n /\ Text.group n' = Text.group n /\
   Text.name n' = Text.name n /\ Text.type n' = Text.type n /\
   Text._text n' = Text._text n /\ Text._style n' = Text._style n /\
   Text.rotation n' = Text.rotation n /\ Text.canvas n' = Text.canvas n /\
   Text.context n' = Text.context n /\
   Text.x n' = Text.x n /\ Text.y n' = Text.y n /\
   Text.anchor n' = Text.anchor n /\ Text.scale n' = Text.scale n /\
   Text.renderable n' = Text.renderable n) /\
  (Cache.a00 c' = Cache.a00 c /\ Cache.a01 c' = Cache.a01 c /\
   Cache.a02 c' = Cache.a02 c /\ Cache.a10 c' = Cache.a10 c /\
   Cache.a11 c' = Cache.a11 c /\ Cache.a12 c' = Cache.a12 c /\
   Cache.id c' = Cache.id c /\
   Cache.scaleX c' = Cache.scaleX c /\ Cache.scaleY c' = Cache.scaleY c).
Proof.
  intros E. cbv zeta. rewrite (update_exists n E). cbv zeta.
  destruct (differs (Point.x (Text.position n)) (Text.x n)
            || differs (Point.y (Text.position n)) (Text.y n));
    cbn; repeat split; reflexivity.
Qed.

(** C10, as the code has it: on a text that exists and whose [x] and [y]
    are not [NaN], after [update()] neither [position.x != _cache.x] nor
    [position.y != _cache.y] holds, and a second [update()] straight after
    changes nothing but [_cache.dirty], which it leaves false. *)
Theorem update_twice (n : Text.t) :
  Text.exists_ n = true ->
  JS.is_NaN (Text.x n) = false ->
  JS.is_NaN (Text.y n) = false ->
  let n' := update n in
  same (Point.x (Text.position n')) (Cache.x (Text._cache n')) = true /\
  same (Point.y (Text.position n')) (Cache.y (Text._cache n')) = true /\
  update n' = Text.set__cache (Cache.set_dirty false (Text._cache n')) n'.
Proof.
  intros E Nx Ny. cbv zeta.
  pose proof (loose_eq_refl StringToNumber ToPrimitive _ Nx) as Rx.
  pose proof (loose_eq_refl StringToNumber ToPrimitive _ Ny) as Ry.
  assert (S : forall m,
             Text.exists_ m = true ->
             same (Point.x (Text.position m)) (Text.x m) = true ->
             same (Point.y (Text.position m)) (Text.y m) = true ->
             Cache.x (Text._cache m) = Text.x m ->
             Cache.y (Text._cache m) = Text.y m ->
             same (Point.x (Text.position m)) (Cache.x (Text._cache m)) = true /\
             same (Point.y (Text.position m)) (Cache.y (Text._cache m)) = true /\
             update m = Text.set__cache (Cache.set_dirty false (Text._cache m)) m).
  { intros m Em Ex Ey Cx Cy. rewrite Cx, Cy.
    auto using update_settled. }
  rewrite (update_exists n E). cbv zeta.
  destruct (differs (Point.x (Text.position n)) (Text.x n)
            || differs (Point.y (Text.position n)) (Text.y n)) eqn:D.
  - apply S; cbn; auto.
  - apply orb_false_iff in D. destruct D as [Dx Dy].
    apply negb_false_iff in Dx, Dy.
    apply S; cbn; auto.
Qed.

End Update.

(** The update theorems at [hi.x = 50; hi.update()]. *)
Lemma update_dirty_iff_position_differs_from_xy_witness :
  Cache.dirty (Text._cache
    (Text.update Examples.StringToNumber Examples.ToPrimitive Examples.hi_moved))
  = true.
Proof.
  exact (update_dirty_iff_position_differs_from_xy
           Examples.StringToNumber Examples.ToPrimitive Examples.hi_moved
           eq_refl).
Defined.

Lemma update_frame_witness :
  Text.x (Text.update Examples.StringToNumber Examples.ToPrimitive
            Examples.hi_moved) = JS.Number 50%float
  /\ Cache.a02 (Text._cache
        (Text.update Examples.StringToNumber Examples.ToPrimitive
           Examples.hi_moved)) = JS.Number 10%float.
Proof.
  destruct (update_frame Examples.StringToNumber Examples.ToPrimitive
              Examples.hi_moved eq_refl)
    as [[_ [_ [_ [_ [_ [_ [_ [_ [_ [_ [_ [Hx _]]]]]]]]]]]] [_ [_ [Ha02 _]]]].
  split; [ exact Hx | exact Ha02 ].
Defined.

Lemma update_twice_witness :
  let n' := Text.update Examples.StringToNumber Examples.ToPrimitive
              Examples.hi_moved in
  Text.update Examples.StringToNumber Examples.ToPrimitive n'
  = Text.set__cache (Cache.set_dirty false (Text._cache n')) n'.
Proof.
  exact (proj2 (proj2 (update_twice Examples.StringToNumber
                         Examples.ToPrimitive Examples.hi_moved
                         eq_refl eq_refl eq_refl))).
Defined.

(** The same text, hidden: [hi.exists = false; hi.update()]. *)
Lemma update_not_exists_unchanged_witness :
  Text.update Examples.StringToNumber Examples.ToPrimitive Examples.hi_hidden
  = Examples.hi_hidden.
Proof.
  exact (update_not_exists_unchanged Examples.StringToNumber
           Examples.ToPrimitive Examples.hi_hidden eq_refl).
Defined.

(** C1 fails as it is worded.  After [hi.x = 50] the position of [hi] is
    what its cache stored, (10, 20), so nothing differs from the cache's
    previously stored values; yet [update()] leaves [_cache.dirty] true,
    because the position differs from [hi.x]. *)
Lemma update_dirty_not_from_cache :
  let n := Examples.hi_moved in
  Text.exists_ n = true /\
  Text.position n
  = Point.mk (Cache.x (Text._cache n)) (Cache.y (Text._cache n)) /\
  (forall S P,
     JS.loose_neq S P (Point.x (Text.position n)) (Cache.x (Text._cache n))
     || JS.loose_neq S P (Point.y (Text.position n)) (Cache.y (Text._cache n))
     = false) /\
  (forall S P, Cache.dirty (Text._cache (Text.update S P n)) = true).
Proof.
  cbv zeta. repeat split; intros; reflexivity.
Qed.

(** Nor is it [this.x] and [this.y] against the cache's stored values:
    after [hi.position.x = 50] both are what the cache stored, and
    [update()] leaves [_cache.dirty] true and puts the position back. *)
Example update_dirty_position_moved :
  let n := Text.set_position
             (Point.set_x (JS.Number 50%float) (Text.position Examples.hi))
             Examples.hi in
  Text.x n = Cache.x (Text._cache n) /\
  Text.y n = Cache.y (Text._cache n) /\
  (forall S P,
     Cache.dirty (Text._cache (Text.update S P n)) = true
     /\ Text.position (Text.update S P n)
        = Point.mk (JS.Number 10%float) (JS.Number 20%float)).
Proof.
  cbv zeta. repeat split; intros; reflexivity.
Qed.

(** C10 fails as it is worded.  After [hi.x = 0 / 0] the text is at [NaN],
    which differs from itself: after [update()] the test
    [position.x != _cache.x] still holds, and the second [update()] leaves
    [_cache.dirty] true, not false. *)
Lemma update_twice_NaN_stays_dirty :
  let n := Examples.hi_lost in
  Text.exists_ n = true /\
  (forall S P,
     let n' := Text.update S P n in
     JS.loose_eq S P (Point.x (Text.position n')) (Cache.x (Text._cache n'))
     = false /\
     Cache.dirty (Text._cache (Text.update S P n')) = true).
Proof.
  cbv zeta. repeat split; intros; reflexivity.
Qed.

(** ** The [content] and [font] properties *)

(** C4: setting [content] to a value that is [===] to [_text] makes no call
    to [setText] and leaves the text as it is; setting it to any other value
    stores the value in [_text] and makes exactly one call, [setText] of
    that value.  The same holds of [font], [_style] and [setStyle]. *)
Theorem set_content_font_rerender (n : Text.t) (v : JS.value) :
  (JS.strict_eq v (Text._text n) = true ->
   Text.set_content v n = Returns n []) /\
  (JS.strict_eq v (Text._text n) = false ->
   Text.set_content v n = Returns (Text.set__text v n) [Text_setText v]
   /\ Text.get_content (Text.set__text v n) = v) /\
  (JS.strict_eq v (Text._style n) = true ->
   Text.set_font v n = Returns n []) /\
  (JS.strict_eq v (Text._style n) = false ->
   Text.set_font v n = Returns (Text.set__style v n) [Text_setStyle v]
   /\ Text.get_font (Text.set__style v n) = v).
Proof.
  unfold Text.set_content, Text.set_font, JS.strict_neq.
  repeat match goal with
         | |- _ /\ _ => split
         | |- _ = _ -> _ => intros ->
         end; reflexivity.
Qed.

(** [hi.content = 'hi'] makes no call; [hi.content = 'bye'] calls
    [setText('bye')] once. *)
Lemma set_content_font_rerender_witness :
  Text.set_content (JS.String "hi") Examples.hi = Returns Examples.hi []
  /\ calls_of (Text.set_content (JS.String "bye") Examples.hi)
     = [Text_setText (JS.String "bye")].
Proof.
  destruct (set_content_font_rerender Examples.hi (JS.String "hi"))
    as [Same _].
  destruct (set_content_font_rerender Examples.hi (JS.String "bye"))
    as [_ [Other _]].
  split.
  - exact (Same eq_refl).
  - exact (f_equal calls_of (proj1 (Other eq_refl))).
Defined.

(** ** The [angle] property *)

(** Reading [angle] after setting it goes through the two conversions of
    [Phaser.Math] and through [rotation], and through nothing else. *)
Lemma angle_set_get radToDeg degToRad (value : JS.value) (n : Text.t) :
  Text.get_angle radToDeg (Text.set_angle degToRad value n)
  = radToDeg (degToRad value).
Proof. reflexivity. Qed.

(** ** The constructor of a text *)

Section Constructor.

Variable PIXI_Text : JS.value -> JS.value -> Surface.t.
Variable Phaser_TEXT : JS.value.

Local Abbreviation new := (Text.constructor PIXI_Text Phaser_TEXT).

(** C9: a falsy argument, whichever it is, gives the text that leaving the
    argument out ([undefined]) gives, for each of [x], [y], [text] and
    [style] and whatever the other arguments are; with a falsy [text] the
    text has [_text = ''], with a falsy [style] it has [_style = '']. *)
Theorem constructor_falsy_as_omitted (game x y text style : JS.value) :
  (JS.ToBoolean x = false ->
   new game x y text style = new game JS.Undefined y text style) /\
  (JS.ToBoolean y = false ->
   new game x y text style = new game x JS.Undefined text style) /\
  (JS.ToBoolean text = false ->
   new game x y text style = new game x y JS.Undefined style
   /\ Text._text (new game x y text style) = JS.empty_string) /\
  (JS.ToBoolean style = false ->
   new game x y text style = new game x y text JS.Undefined
   /\ Text._style (new game x y text style) = JS.empty_string).
Proof.
  unfold Text.constructor, JS.or.
  repeat match goal with
         | |- _ /\ _ => split
         | |- _ = _ -> _ => intros ->
         end; reflexivity.
Qed.

End Constructor.

(** [new Phaser.Text(game, '', null, false, 0)] is [new Phaser.Text(game)]. *)
Lemma constructor_falsy_as_omitted_witness :
  Text.constructor Examples.PIXI_Text Examples.Phaser_TEXT (JS.Object 1)
    JS.empty_string JS.Null (JS.Boolean false) JS.num_0
  = Text.constructor Examples.PIXI_Text Examples.Phaser_TEXT (JS.Object 1)
      JS.Undefined JS.Undefined JS.Undefined JS.Undefined.
Proof.
  pose (f := Text.constructor Examples.PIXI_Text Examples.Phaser_TEXT
               (JS.Object 1)).
  pose (T := constructor_falsy_as_omitted Examples.PIXI_Text
               Examples.Phaser_TEXT (JS.Object 1)).
  change (f JS.empty_string JS.Null (JS.Boolean false) JS.num_0
          = f JS.Undefined JS.Undefined JS.Undefined JS.Undefined).
  transitivity (f JS.Undefined JS.Null (JS.Boolean false) JS.num_0).
  { exact (proj1 (T JS.empty_string JS.Null (JS.Boolean false) JS.num_0)
             eq_refl). }
  transitivity (f JS.Undefined JS.Undefined (JS.Boolean false) JS.num_0).
  { exact (proj1 (proj2 (T JS.Undefined JS.Null (JS.Boolean false) JS.num_0))
             eq_refl). }
  transitivity (f JS.Undefined JS.Undefined JS.Undefined JS.num_0).
  { exact (proj1 (proj1 (proj2 (proj2
             (T JS.Undefined JS.Undefined (JS.Boolean false) JS.num_0)))
             eq_refl)). }
  exact (proj1 (proj2 (proj2 (proj2
           (T JS.Undefined JS.Undefined JS.Undefined JS.num_0))) eq_refl)).
Defined.

(** ** Destroying a text *)

(** C6: on a text that still has its canvas, [destroy()] returns; it calls
    the group's [remove] exactly when the text had a group; when the canvas
    has no parent node it sets [canvas] and [context] to [null] and calls
    nothing, otherwise it calls [removeChild] on the parent and keeps both;
    afterwards [exists] is false and [group] is [null]. *)
Theorem destroy_first_call (n : Text.t) (c : Canvas.t) :
  Text.canvas n = Some c ->
  exists n',
    Text.destroy n
    = Returns n'
        (match Text.group n with
         | Some g => [Group_remove g]
         | None => []
         end
         ++ match Canvas.parentNode c with
            | Some parent => [Node_removeChild parent]
            | None => []
            end)
    /\ match Canvas.parentNode c with
       | None => Text.canvas n' = None /\ Text.context n' = JS.Null
       | Some _ => Text.canvas n' <> None /\ Text.context n' = Text.context n
       end
    /\ Text.exists_ n' = false
    /\ Text.group n' = None.
Proof.
  intros C. unfold Text.destroy. rewrite C.
  destruct c as [[parent | ]], (Text.group n) as [g | ]; cbn;
    eexists; (split; [ reflexivity | ]); cbn;
    repeat split; congruence.
Qed.

(** [hi], in a group and on the page, destroyed: both collaborators are
    called and the canvas is kept. *)
Lemma destroy_first_call_witness :
  exists n',
    Text.destroy Examples.hi_on_page
    = Returns n' [Group_remove 5; Node_removeChild 7]
    /\ (Text.canvas n' <> None
        /\ Text.context n' = Text.context Examples.hi_on_page)
    /\ Text.exists_ n' = false
    /\ Text.group n' = None.
Proof.
  exact (destroy_first_call Examples.hi_on_page (c := Canvas.mk (Some 7))
           eq_refl).
Defined.

(** ** Destroying an event hub *)

Section EventsDestroy.

Variable Signal_prototype_dispose : Signal.t -> option Signal.t.

Local Abbreviation destroy := (Events.destroy Signal_prototype_dispose).

(** One [dispose()] call of [destroy], on a member that is there. *)
Ltac dispose_step H :=
  match type of H with
  | context [Signal_prototype_dispose ?s] =>
      destruct (Signal_prototype_dispose s) as [? | ] eqn:?;
      cbn in H; try discriminate H
  end.

Ltac there s H := destruct s as [? | ]; cbn in H; [ | discriminate H ].

Ltac gone s H := destruct s as [? | ]; cbn in H; [ discriminate H | ].

(** A hub that [destroy] went through: the five fixed signals were there,
    and so was each optional group whose first member was; each of them is
    still there afterwards. *)
Lemma destroy_returns_inv (h h' : Events.t) (calls : list call) :
  destroy h = Returns h' calls ->
  calls = map Signal_dispose (Events.disposed_members h)
  /\ Events.parent h' = JS.Null
  /\ (forall m, Events.truthy m h' = Events.truthy m h)
  /\ forallb (fun m => Events.truthy m h) (Events.disposed_members h) = true.
Proof.
  intros H.
  destruct h as [p s1 s2 s3 s4 s5 i1 i2 i3 i4 i5 i6 a1 a2 a3].
  unfold Events.destroy in H. cbn in H.
  there s1 H. dispose_step H.
  there s2 H. dispose_step H.
  there s3 H. dispose_step H.
  there s4 H. dispose_step H.
  there s5 H. dispose_step H.
  destruct i1 as [? | ]; cbn in H.
  - dispose_step H.
    there i2 H. dispose_step H.
    there i3 H. dispose_step H.
    there i4 H. dispose_step H.
    there i5 H. dispose_step H.
    there i6 H. dispose_step H.
    destruct a1 as [? | ]; cbn in H.
    + dispose_step H.
      there a2 H. dispose_step H.
      there a3 H. dispose_step H.
      injection H as <- <-. cbn. repeat split. intros []; reflexivity.
    + injection H as <- <-. cbn. repeat split. intros []; reflexivity.
  - destruct a1 as [? | ]; cbn in H.
    + dispose_step H.
      there a2 H. dispose_step H.
      there a3 H. dispose_step H.
      injection H as <- <-. cbn. repeat split. intros []; reflexivity.
    + injection H as <- <-. cbn. repeat split. intros []; reflexivity.
Qed.


(** A new hub is well formed, whichever optional groups are enabled. *)
Lemma enabled_well_formed (sprite : JS.value) (input animation : bool) :
  Events.well_formed
    ((if animation then Events.enable_animation else fun h => h)
       ((if input then Events.enable_input else fun h => h)
          (Events.constructor sprite)))
  = true.
Proof. destruct input, animation; reflexivity. Qed.

(** A hub whose members to dispose of are all there meets no [null]. *)
Lemma destroy_no_null_fault (h : Events.t) :
  forallb (fun m => Events.truthy m h) (Events.disposed_members h) = true ->
  forall property calls, destroy h <> Throws (TypeError property) calls.
Proof.
  intros T property calls.
  destruct h as [p s1 s2 s3 s4 s5 i1 i2 i3 i4 i5 i6 a1 a2 a3].
  unfold Events.disposed_members in T. cbn in T.
  there s1 T. there s2 T. there s3 T. there s4 T. there s5 T.
  unfold Events.destroy. cbn.
  destruct i1 as [? | ]; cbn in T;
    [ there i2 T; there i3 T; there i4 T; there i5 T; there i6 T | ];
    (destruct a1 as [? | ]; cbn in T; [ there a2 T; there a3 T | ]);
    repeat match goal with
           | |- context [Signal_prototype_dispose ?s] =>
               destruct (Signal_prototype_dispose s) as [? | ]; cbn;
               try discriminate
           end.
Qed.

(** With signals that throw when they are disposed of twice, a hub that
    [destroy] went through faults in the first [dispose()] of a second
    [destroy]. *)
Lemma destroy_again_faults (h h' : Events.t) (calls : list call) :
  (forall s s', Signal_prototype_dispose s = Some s' ->
                Signal_prototype_dispose s' = None) ->
  destroy h = Returns h' calls ->
  destroy h'
  = Throws (Thrown (Signal_dispose Member.onAddedToGroup))
      [Signal_dispose Member.onAddedToGroup].
Proof.
  intros Once H.
  destruct h as [p s1 s2 s3 s4 s5 i1 i2 i3 i4 i5 i6 a1 a2 a3].
  unfold Events.destroy in H. cbn in H.
  destruct s1 as [s1 | ]; cbn in H; [ | discriminate H ].
  destruct (Signal_prototype_dispose s1) as [s1' | ] eqn:E1; cbn in H;
    [ | discriminate H ].
  apply Once in E1.
  there s2 H. dispose_step H. there s3 H. dispose_step H.
  there s4 H. dispose_step H. there s5 H. dispose_step H.
  destruct i1 as [? | ]; cbn in H;
    [ dispose_step H;
      there i2 H; dispose_step H; there i3 H; dispose_step H;
      there i4 H; dispose_step H; there i5 H; dispose_step H;
      there i6 H; dispose_step H
    | ];
    (destruct a1 as [? | ]; cbn in H;
     [ dispose_step H; there a2 H; dispose_step H; there a3 H; dispose_step H
     | ]);
    injection H as <- <-; unfold Events.destroy; cbn;
    rewrite E1; reflexivity.
Qed.

(** C2, as the code has it: on a hub whose five fixed signals are there and
    whose optional groups are each entirely there or entirely absent, and
    as long as [dispose()] returns on the signals the hub holds,
    [destroy()] returns and has called [dispose()] once on each fixed
    signal and once on each member of each group that is there: 5 calls
    with no optional group, 11 with the input group alone, 8 with the
    animation group alone, 14 with both. *)
Theorem destroy_disposals (h : Events.t) :
  Events.well_formed h = true ->
  (forall m s, Events.get m h = Some s -> Signal_prototype_dispose s <> None) ->
  exists h',
    destroy h = Returns h' (map Signal_dispose (Events.disposed_members h))
    /\ Events.disposals (destroy h)
       = 5 + (if Events.truthy Member.onInputOver h then 6 else 0)
           + (if Events.truthy Member.onAnimationStart h then 3 else 0).
Proof.
  intros W D.
  assert (L : forall s, In (Some s)
                [Events.onAddedToGroup h; Events.onRemovedFromGroup h;
                 Events.onKilled h; Events.onRevived h; Events.onOutOfBounds h;
                 Events.onInputOver h; Events.onInputOut h;
                 Events.onInputDown h; Events.onInputUp h;
                 Events.onDragStart h; Events.onDragStop h;
                 Events.onAnimationStart h; Events.onAnimationComplete h;
                 Events.onAnimationLoop h] ->
              Signal_prototype_dispose s <> None).
  { intros s I. cbn in I.
    repeat destruct I as [I | I]; try contradiction;
      [ apply (D Member.onAddedToGroup) | apply (D Member.onRemovedFromGroup)
      | apply (D Member.onKilled) | apply (D Member.onRevived)
      | apply (D Member.onOutOfBounds) | apply (D Member.onInputOver)
      | apply (D Member.onInputOut) | apply (D Member.onInputDown)
      | apply (D Member.onInputUp) | apply (D Member.onDragStart)
      | apply (D Member.onDragStop) | apply (D Member.onAnimationStart)
      | apply (D Member.onAnimationComplete)
      | apply (D Member.onAnimationLoop) ]; exact I. }
  clear D.
  destruct h as [p s1 s2 s3 s4 s5 i1 i2 i3 i4 i5 i6 a1 a2 a3].
  unfold Events.well_formed in W. cbn in W, L.
  there s1 W. there s2 W. there s3 W. there s4 W. there s5 W.
  unfold Events.disposals, Events.destroy, Events.disposed_members. cbn.
  destruct i1 as [? | ]; cbn in W;
    [ there i2 W; there i3 W; there i4 W; there i5 W; there i6 W
    | gone i2 W; gone i3 W; gone i4 W; gone i5 W; gone i6 W ];
    (destruct a1 as [? | ]; cbn in W;
     [ there a2 W; there a3 W | gone a2 W; gone a3 W ]);
    repeat match goal with
           | |- context [Signal_prototype_dispose ?s] =>
               let E := fresh "E" in
               destruct (Signal_prototype_dispose s) as [? | ] eqn:E; cbn;
               [ | exfalso; apply (L s); [ cbn; tauto | exact E ] ]
           end;
    eexists; split; reflexivity.
Qed.

End EventsDestroy.

(** The bare hub and the hub with both groups, destroyed. *)
Lemma destroy_disposals_witness :
  Events.disposals (Events.destroy Examples.dispose Examples.hub) = 5
  /\ Events.disposals (Events.destroy Examples.dispose Examples.hub_full) = 14.
Proof.
  assert (D : forall h (m : Member.t) (s : Signal.t),
             Events.get m h = Some s -> Examples.dispose s <> None)
    by (intros h m s _; discriminate).
  destruct (destroy_disposals Examples.dispose Examples.hub eq_refl
              (D Examples.hub)) as [h1 [_ Bare]].
  destruct (destroy_disposals Examples.dispose Examples.hub_full eq_refl
              (D Examples.hub_full)) as [h2 [_ Full]].
  split; [ exact Bare | exact Full ].
Defined.

(** C2 fails as it is worded.  With the input group and the animation
    group both there, [destroy()] calls [dispose()] 14 times, not 11: the
    input group has six members and the animation group three. *)
Lemma destroy_both_groups_not_11 :
  let h := Examples.hub_full in
  Events.present Events.input_members h = true /\
  Events.present Events.animation_members h = true /\
  Events.disposals (Events.destroy Examples.dispose h) = 14 /\
  Events.disposals (Events.destroy Examples.dispose h) <> 11.
Proof.
  cbv zeta. repeat split. discriminate.
Qed.

(** ** Destroying twice *)

(** C5, as the code has it.  Neither [destroy()] may be repeated without
    more ado.  A text whose canvas had no parent node lost its canvas in the
    first [destroy()], and the second call faults on
    [this.canvas.parentNode]; the [null] group is not the fault, it is
    tested first.  A text whose canvas was attached kept it, and the second
    call returns.  A hub that went through [destroy()] faults in the second
    call, in its first [dispose()], which is on a signal that is disposed of
    already. *)
Theorem destroy_twice :
  (forall n c n' calls,
     Text.canvas n = Some c ->
     Canvas.parentNode c = None ->
     Text.destroy n = Returns n' calls ->
     Text.group n' = None
     /\ Text.destroy n' = Throws (TypeError "parentNode") []) /\
  (forall n c parent n' calls,
     Text.canvas n = Some c ->
     Canvas.parentNode c = Some parent ->
     Text.destroy n = Returns n' calls ->
     exists n'', Text.destroy n' = Returns n'' []) /\
  (forall h h' calls,
     Events.destroy Signal.dispose h = Returns h' calls ->
     Events.destroy Signal.dispose h'
     = Throws (Thrown (Signal_dispose Member.onAddedToGroup))
         [Signal_dispose Member.onAddedToGroup]).
Proof.
  split; [ | split ].
  - intros n [parent] n' calls C P H. cbn in P. subst parent.
    unfold Text.destroy in H. rewrite C in H.
    destruct (Text.group n); cbn in H; injection H as <- <-;
      split; reflexivity.
  - intros n [parent'] parent n' calls C P H. cbn in P. subst parent'.
    unfold Text.destroy in H. rewrite C in H.
    destruct (Text.group n); cbn in H; injection H as <- <-;
      eexists; reflexivity.
  - intros h h' calls H.
    apply destroy_again_faults with (h := h) (calls := calls); [ | exact H ].
    intros [[ | ]] s' E; cbn in E; [ discriminate E | ].
    injection E as <-. reflexivity.
Qed.

(** [hi] has a canvas without a parent: destroyed twice, it faults; so does
    the hub with both groups. *)
Lemma destroy_twice_witness :
  (exists n',
     Text.destroy Examples.hi = Returns n' []
     /\ Text.destroy n' = Throws (TypeError "parentNode") [])
  /\ (exists h',
        Events.destroy Signal.dispose Examples.hub_full
        = Returns h' (map Signal_dispose
                        (Events.disposed_members Examples.hub_full))
        /\ Events.destroy Signal.dispose h'
           = Throws (Thrown (Signal_dispose Member.onAddedToGroup))
               [Signal_dispose Member.onAddedToGroup]).
Proof.
  split.
  - eexists. split.
    + reflexivity.
    + exact (proj2 (proj1 destroy_twice Examples.hi (Canvas.mk None) _ []
                      eq_refl eq_refl eq_refl)).
  - eexists. split.
    + reflexivity.
    + exact (proj2 (proj2 destroy_twice) Examples.hub_full _ _ eq_refl).
Defined.

(** C5 fails as it is worded.  [hi], in a group and on the page, is
    destroyed twice, and the second call returns: its canvas was kept, and
    its [null] group is skipped by [if (this.group)]. *)
Lemma destroy_twice_on_page_returns :
  exists n' n'',
    Text.destroy Examples.hi_on_page
    = Returns n' [Group_remove 5; Node_removeChild 7]
    /\ Text.destroy n' = Returns n'' [].
Proof.
  do 2 eexists. split; reflexivity.
Qed.

(** With signals that throw when disposed of twice, the second [destroy()]
    of a hub faults in the first [dispose()], on no [null]. *)
Example destroy_twice_dispose_once :
  exists h' calls,
    Events.destroy Examples.dispose_once Examples.hub = Returns h' calls
    /\ Events.destroy Examples.dispose_once h'
       = Throws (Thrown (Signal_dispose Member.onAddedToGroup))
           [Signal_dispose Member.onAddedToGroup].
Proof.
  do 2 eexists. split; reflexivity.
Qed.

(** * Further properties *)

(** ** Values that equal themselves *)

Lemma strict_eq_refl (v : JS.value) :
  JS.is_NaN v = false -> JS.strict_eq v v = true.
Proof.
  destruct v as [ | | b | f | s | r ]; cbn; intros H; try reflexivity.
  - apply Bool.eqb_reflx.
  - unfold is_nan in H. now apply negb_false_iff in H.
  - apply String.eqb_refl.
  - apply Nat.eqb_refl.
Qed.

Lemma truthy_not_NaN (v : JS.value) :
  JS.ToBoolean v = true -> JS.is_NaN v = false.
Proof.
  destruct v as [ | | b | f | s | r ]; cbn; intros H; try reflexivity.
  apply negb_true_iff, orb_false_iff in H. apply H.
Qed.

(** [v || d] is not [NaN] when the default [d] is not. *)
Lemma or_not_NaN (v d : JS.value) :
  JS.is_NaN d = false -> JS.is_NaN (JS.or v d) = false.
Proof.
  intros D. unfold JS.or. destruct (JS.ToBoolean v) eqn:T.
  - now apply truthy_not_NaN.
  - exact D.
Qed.

(** ** A new text and the update cycle *)

Section NewText.

Variable StringToNumber : string -> float.
Variable ToPrimitive : nat -> JS.value.
Variable PIXI_Text : JS.value -> JS.value -> Surface.t.
Variable Phaser_TEXT : JS.value.

Local Abbreviation new := (Text.constructor PIXI_Text Phaser_TEXT).
Local Abbreviation update := (Text.update StringToNumber ToPrimitive).

(** X1: whatever the arguments of the constructor are, the text it builds
    is at rest: its position and its cache hold its coordinates, which are
    never [NaN] since [NaN || 0] is [0], and [update()] returns it as it is,
    the dirty flag false. *)
Theorem constructor_then_update (game x y text style : JS.value) :
  let n := new game x y text style in
  Text.position n = Point.mk (Text.x n) (Text.y n)
  /\ Cache.x (Text._cache n) = Text.x n
  /\ Cache.y (Text._cache n) = Text.y n
  /\ Cache.a02 (Text._cache n) = Text.x n
  /\ Cache.a12 (Text._cache n) = Text.y n
  /\ JS.is_NaN (Text.x n) = false
  /\ JS.is_NaN (Text.y n) = false
  /\ update n = n.
Proof.
  cbv zeta.
  assert (Nx : JS.is_NaN (JS.or x JS.num_0) = false)
    by (apply or_not_NaN; reflexivity).
  assert (Ny : JS.is_NaN (JS.or y JS.num_0) = false)
    by (apply or_not_NaN; reflexivity).
  repeat split; try reflexivity; try assumption.
  rewrite update_settled; try reflexivity.
  - now apply loose_eq_refl.
  - now apply loose_eq_refl.
Qed.

(** X2: on a text that exists, [update()] does not read what [_cache.dirty],
    [_cache.x] and [_cache.y] held: whatever is put there before the call,
    the text after the call is the same. *)
Theorem update_ignores_cache_history
    (n : Text.t) (d : bool) (cx cy : JS.value) :
  Text.exists_ n = true ->
  update
    (Text.set__cache
       (Cache.set_dirty d (Cache.set_x cx (Cache.set_y cy (Text._cache n)))) n)
  = update n.
Proof.
  intros E. rewrite (update_exists _ _ n E).
  rewrite update_exists by exact E.
  destruct n as [g e a gr nm ty tx st [px py] r cv cxt x y an sc c re].
  destruct c; reflexivity.
Qed.

(** X3: the rotation of a text plays no part in the update cycle: setting
    [angle] before or after [update()] gives the same text, so a rotation
    never makes a text dirty. *)
Theorem update_set_angle_commute degToRad (value : JS.value) (n : Text.t) :
  update (Text.set_angle degToRad value n)
  = Text.set_angle degToRad value (update n).
Proof.
  unfold Text.set_angle.
  destruct (Text.exists_ n) eqn:E.
  - rewrite (update_exists _ _ n E), update_exists by exact E. cbn.
    destruct (JS.loose_neq StringToNumber ToPrimitive
                (Point.x (Text.position n)) (Text.x n)
              || JS.loose_neq StringToNumber ToPrimitive
                   (Point.y (Text.position n)) (Text.y n)); reflexivity.
  - unfold Text.update. cbn. now rewrite E.
Qed.

End NewText.

(** [hi] with a stale cache: [update()] gives what it gives on [hi]. *)
Lemma update_ignores_cache_history_witness :
  Text.update Examples.StringToNumber Examples.ToPrimitive
    (Text.set__cache
       (Cache.set_dirty true
          (Cache.set_x JS.NaN (Cache.set_y JS.Null (Text._cache Examples.hi_moved))))
       Examples.hi_moved)
  = Text.update Examples.StringToNumber Examples.ToPrimitive Examples.hi_moved.
Proof.
  exact (update_ignores_cache_history Examples.StringToNumber
           Examples.ToPrimitive Examples.hi_moved true JS.NaN JS.Null eq_refl).
Defined.

(** ** The [content] and [font] properties, again *)

Section Properties.

Variable StringToNumber : string -> float.
Variable ToPrimitive : nat -> JS.value.

Local Abbreviation update := (Text.update StringToNumber ToPrimitive).

(** [update()] and an assignment to [_text] or [_style] commute. *)
Lemma update_set__text (v : JS.value) (n : Text.t) :
  update (Text.set__text v n) = Text.set__text v (update n).
Proof.
  destruct (Text.exists_ n) eqn:E.
  - rewrite (update_exists _ _ n E), update_exists by exact E. cbn.
    destruct (JS.loose_neq StringToNumber ToPrimitive
                (Point.x (Text.position n)) (Text.x n)
              || JS.loose_neq StringToNumber ToPrimitive
                   (Point.y (Text.position n)) (Text.y n)); reflexivity.
  - unfold Text.update. cbn. now rewrite E.
Qed.

Lemma update_set__style (v : JS.value) (n : Text.t) :
  update (Text.set__style v n) = Text.set__style v (update n).
Proof.
  destruct (Text.exists_ n) eqn:E.
  - rewrite (update_exists _ _ n E), update_exists by exact E. cbn.
    destruct (JS.loose_neq StringToNumber ToPrimitive
                (Point.x (Text.position n)) (Text.x n)
              || JS.loose_neq StringToNumber ToPrimitive
                   (Point.y (Text.position n)) (Text.y n)); reflexivity.
  - unfold Text.update. cbn. now rewrite E.
Qed.

Lemma update_keeps_text_style (n : Text.t) :
  Text._text (update n) = Text._text n
  /\ Text._style (update n) = Text._style n.
Proof.
  destruct (Text.exists_ n) eqn:E.
  - rewrite (update_exists _ _ n E). cbv zeta.
    destruct (JS.loose_neq StringToNumber ToPrimitive
                (Point.x (Text.position n)) (Text.x n)
              || JS.loose_neq StringToNumber ToPrimitive
                   (Point.y (Text.position n)) (Text.y n)); split; reflexivity.
  - unfold Text.update. rewrite E. split; reflexivity.
Qed.

(** X4: an assignment to [content] or to [font] and [update()] do not see
    each other: the assignment makes the same calls before and after
    [update()], and the text is the same in either order.  Neither property
    ever makes a text dirty. *)
Theorem set_content_font_update_commute (v : JS.value) (n : Text.t) :
  (exists n1 calls,
     Text.set_content v n = Returns n1 calls
     /\ Text.set_content v (update n) = Returns (update n1) calls)
  /\ (exists n1 calls,
        Text.set_font v n = Returns n1 calls
        /\ Text.set_font v (update n) = Returns (update n1) calls).
Proof.
  destruct (update_keeps_text_style n) as [Kt Ks].
  unfold Text.set_content, Text.set_font. rewrite Kt, Ks. split.
  - destruct (JS.strict_neq v (Text._text n)); cbn;
      do 2 eexists; (split; [ reflexivity | ]);
      now rewrite ?update_set__text.
  - destruct (JS.strict_neq v (Text._style n)); cbn;
      do 2 eexists; (split; [ reflexivity | ]);
      now rewrite ?update_set__style.
Qed.

End Properties.

(** X5: assigning the same value to [content] twice in a row makes no call
    the second time, unless the value is [NaN]; the same holds of [font]. *)
Theorem set_content_font_twice (v : JS.value) (n : Text.t) :
  JS.is_NaN v = false ->
  (forall n1 calls,
     Text.set_content v n = Returns n1 calls ->
     Text.set_content v n1 = Returns n1 [])
  /\ (forall n1 calls,
        Text.set_font v n = Returns n1 calls ->
        Text.set_font v n1 = Returns n1 []).
Proof.
  intros N. pose proof (strict_eq_refl v N) as R.
  unfold Text.set_content, Text.set_font, JS.strict_neq.
  split; intros n1 calls H.
  - destruct (JS.strict_eq v (Text._text n)) eqn:E; cbn in H;
      injection H as <- <-; cbn; [ rewrite E | rewrite R ]; reflexivity.
  - destruct (JS.strict_eq v (Text._style n)) eqn:E; cbn in H;
      injection H as <- <-; cbn; [ rewrite E | rewrite R ]; reflexivity.
Qed.

(** [hi.content = 'bye'; hi.content = 'bye']: the second makes no call. *)
Lemma set_content_font_twice_witness :
  exists n1,
    Text.set_content (JS.String "bye") Examples.hi
    = Returns n1 [Text_setText (JS.String "bye")]
    /\ Text.set_content (JS.String "bye") n1 = Returns n1 [].
Proof.
  eexists. split.
  - reflexivity.
  - exact (proj1 (set_content_font_twice (JS.String "bye") Examples.hi eq_refl)
             _ _ eq_refl).
Defined.

(** [NaN] is the value that does: [hi.content = 0 / 0] twice calls
    [setText] twice. *)
Example set_content_NaN_twice :
  exists n1,
    Text.set_content JS.NaN Examples.hi = Returns n1 [Text_setText JS.NaN]
    /\ Text.set_content JS.NaN n1 = Returns n1 [Text_setText JS.NaN].
Proof.
  eexists. split; reflexivity.
Qed.

Section NewTextContent.

Variable PIXI_Text : JS.value -> JS.value -> Surface.t.
Variable Phaser_TEXT : JS.value.

Local Abbreviation new := (Text.constructor PIXI_Text Phaser_TEXT).

(** X6: on a new text [content] reads the [text] argument when that is
    truthy and [''] otherwise, [font] reads [style] likewise, and assigning
    back to either what it reads makes no call: neither [_text] nor
    [_style] of a new text is [NaN]. *)
Theorem constructor_content_font (game x y text style : JS.value) :
  let n := new game x y text style in
  Text.get_content n = JS.or text JS.empty_string
  /\ Text.get_font n = JS.or style JS.empty_string
  /\ Text.set_content (Text.get_content n) n = Returns n []
  /\ Text.set_font (Text.get_font n) n = Returns n [].
Proof.
  cbv zeta.
  assert (Nt : JS.is_NaN (JS.or text JS.empty_string) = false)
    by (apply or_not_NaN; reflexivity).
  assert (Ns : JS.is_NaN (JS.or style JS.empty_string) = false)
    by (apply or_not_NaN; reflexivity).
  repeat split.
  - unfold Text.set_content, Text.get_content, JS.strict_neq. cbn.
    now rewrite (strict_eq_refl _ Nt).
  - unfold Text.set_font, Text.get_font, JS.strict_neq. cbn.
    now rewrite (strict_eq_refl _ Ns).
Qed.

End NewTextContent.

(** ** Destroying a text, again *)

(** What [destroy()] returns, when it returns. *)
Lemma text_destroy_returns (n n' : Text.t) (calls : list call) :
  Text.destroy n = Returns n' calls ->
  exists c,
    Text.canvas n = Some c
    /\ n' = Text.set_group None (Text.set_exists false
              match Canvas.parentNode c with
              | Some _ => Text.set_canvas (Some (Canvas.mk None)) n
              | None => Text.set_context JS.Null (Text.set_canvas None n)
              end)
    /\ calls = match Text.group n with
               | Some g => [Group_remove g]
               | None => []
               end
               ++ match Canvas.parentNode c with
                  | Some parent => [Node_removeChild parent]
                  | None => []
                  end.
Proof.
  unfold Text.destroy. intros H.
  destruct (Text.canvas n) as [[[parent | ]] | ], (Text.group n) as [g | ];
    cbn in H; try discriminate H;
    injection H as <- <-; eexists; repeat split.
Qed.

(** X7: on a text whose canvas is [null], [destroy()] faults on
    [this.canvas.parentNode], after it has told the group, if there is one,
    to remove the text. *)
Theorem destroy_without_canvas (n : Text.t) :
  Text.canvas n = None ->
  Text.destroy n
  = Throws (TypeError "parentNode")
      match Text.group n with
      | Some g => [Group_remove g]
      | None => []
      end.
Proof.
  intros C. unfold Text.destroy. rewrite C.
  destruct (Text.group n); reflexivity.
Qed.

(** [hi] in group 5, its canvas gone. *)
Lemma destroy_without_canvas_witness :
  Text.destroy (Text.set_canvas None Examples.hi_on_page)
  = Throws (TypeError "parentNode") [Group_remove 5].
Proof.
  exact (destroy_without_canvas (Text.set_canvas None Examples.hi_on_page)
           eq_refl).
Defined.

(** X8: [destroy()] writes [canvas], [context], [exists] and [group] and
    nothing else: the text, the style, the coordinates, the position, the
    cache and the [alive] flag of a destroyed text are what they were. *)
Theorem destroy_frame (n n' : Text.t) (calls : list call) :
  Text.destroy n = Returns n' calls ->
  Text.game n' = Text.game n /\ Text.alive n' = Text.alive n
  /\ Text.name n' = Text.name n /\ Text.type n' = Text.type n
  /\ Text._text n' = Text._text n /\ Text._style n' = Text._style n
  /\ Text.position n' = Text.position n /\ Text.rotation n' = Text.rotation n
  /\ Text.x n' = Text.x n /\ Text.y n' = Text.y n
  /\ Text.anchor n' = Text.anchor n /\ Text.scale n' = Text.scale n
  /\ Text._cache n' = Text._cache n /\ Text.renderable n' = Text.renderable n.
Proof.
  intros H. destruct (text_destroy_returns n H) as [[[parent | ]] [_ [-> _]]];
    repeat split.
Qed.

Lemma destroy_frame_witness :
  exists n',
    Text.destroy Examples.hi_on_page
    = Returns n' [Group_remove 5; Node_removeChild 7]
    /\ Text.alive n' = true
    /\ Text._cache n' = Text._cache Examples.hi_on_page.
Proof.
  eexists. split; [ reflexivity | ].
  destruct (destroy_frame Examples.hi_on_page eq_refl)
    as [_ [A [_ [_ [_ [_ [_ [_ [_ [_ [_ [_ [C _]]]]]]]]]]]]].
  split; [ exact A | exact C ].
Defined.

(** X9: a destroyed text is out of the update cycle: [update()] returns it
    as it is, whatever was done to its coordinates before it was
    destroyed. *)
Theorem destroy_then_update (n n' : Text.t) (calls : list call) :
  Text.destroy n = Returns n' calls ->
  forall StringToNumber ToPrimitive,
    Text.update StringToNumber ToPrimitive n' = n'.
Proof.
  intros H S P. destruct (text_destroy_returns n H) as [c [_ [-> _]]].
  reflexivity.
Qed.

Lemma destroy_then_update_witness :
  exists n',
    Text.destroy (Text.set_x (JS.Number 50%float) Examples.hi_on_page)
    = Returns n' [Group_remove 5; Node_removeChild 7]
    /\ Text.update Examples.StringToNumber Examples.ToPrimitive n' = n'.
Proof.
  eexists. split; [ reflexivity | ].
  exact (destroy_then_update
           (Text.set_x (JS.Number 50%float) Examples.hi_on_page) eq_refl
           Examples.StringToNumber Examples.ToPrimitive).
Defined.

(** X10: a text that [destroy()] went through is told to no collaborator
    again: a second [destroy()], whether it returns or faults, calls neither
    the group's [remove] nor [removeChild]. *)
Theorem destroy_again_calls_nothing (n n' : Text.t) (calls : list call) :
  Text.destroy n = Returns n' calls ->
  calls_of (Text.destroy n') = [].
Proof.
  intros H. destruct (text_destroy_returns n H) as [[[parent | ]] [_ [-> _]]];
    reflexivity.
Qed.

Lemma destroy_again_calls_nothing_witness :
  exists n',
    Text.destroy Examples.hi_on_page
    = Returns n' [Group_remove 5; Node_removeChild 7]
    /\ calls_of (Text.destroy n') = [].
Proof.
  eexists. split; [ reflexivity | ].
  exact (destroy_again_calls_nothing Examples.hi_on_page eq_refl).
Defined.

(** X11: [destroy()] returns at most twice in a row on a text: the first
    call on a text whose canvas is attached keeps the canvas, the second
    gives it up, and the third faults on [this.canvas.parentNode]. *)
Theorem destroy_third_call_faults
    (n n1 n2 : Text.t) (calls1 calls2 : list call) :
  Text.destroy n = Returns n1 calls1 ->
  Text.destroy n1 = Returns n2 calls2 ->
  Text.canvas n2 = None
  /\ Text.context n2 = JS.Null
  /\ Text.destroy n2 = Throws (TypeError "parentNode") [].
Proof.
  intros H1 H2.
  destruct (text_destroy_returns n H1) as [[[parent | ]] [_ [-> _]]];
    cbn in H2; try discriminate H2.
  injection H2 as <- _. repeat split.
Qed.

Lemma destroy_third_call_faults_witness :
  exists n1 n2,
    Text.destroy Examples.hi_on_page
    = Returns n1 [Group_remove 5; Node_removeChild 7]
    /\ Text.destroy n1 = Returns n2 []
    /\ Text.destroy n2 = Throws (TypeError "parentNode") [].
Proof.
  do 2 eexists. split; [ reflexivity | ]. split; [ reflexivity | ].
  exact (proj2 (proj2 (destroy_third_call_faults Examples.hi_on_page
                         eq_refl eq_refl))).
Defined.

(** ** Destroying an event hub, again *)

Section EventsDestroyMore.

Variable Signal_prototype_dispose : Signal.t -> option Signal.t.

Local Abbreviation destroy := (Events.destroy Signal_prototype_dispose).

(** [this.<m>.dispose()] in the goal: the member is [null], or [dispose()]
    throws, or the call returns; [leaf] closes the first two. *)
Ltac call_dispose s leaf :=
  destruct s as [s | ]; cbn;
  [ destruct (Signal_prototype_dispose s) as [? | ] eqn:?; cbn;
    [ | solve [ leaf ] ]
  | solve [ leaf ] ].

(** The same in a hypothesis that says [destroy] returned. *)
Ltac called_dispose s H :=
  destruct s as [s | ]; cbn in H; [ | discriminate H ];
  destruct (Signal_prototype_dispose s) as [? | ] eqn:?; cbn in H;
  [ | discriminate H ].

(** X12: whether it returns or faults, [destroy()] calls [dispose()] on
    members in one fixed order and stops at the first fault: the five fixed
    members, then the six input members if [onInputOver] is not [null],
    then the three animation members if [onAnimationStart] is not [null].
    It never disposes of an input member when [onInputOver] is [null], nor
    of an animation member when [onAnimationStart] is [null], whatever the
    other members hold. *)
Theorem destroy_calls_prefix (h : Events.t) :
  exists rest,
    calls_of (destroy h) ++ rest
    = map Signal_dispose (Events.disposed_members h).
Proof.
  destruct h as [p s1 s2 s3 s4 s5 i1 i2 i3 i4 i5 i6 a1 a2 a3].
  unfold Events.destroy, Events.disposed_members. cbn.
  call_dispose s1 ltac:(eexists; reflexivity).
  call_dispose s2 ltac:(eexists; reflexivity).
  call_dispose s3 ltac:(eexists; reflexivity).
  call_dispose s4 ltac:(eexists; reflexivity).
  call_dispose s5 ltac:(eexists; reflexivity).
  destruct i1 as [i1 | ]; cbn.
  - destruct (Signal_prototype_dispose i1) as [? | ]; cbn;
      [ | destruct a1; eexists; reflexivity ].
    call_dispose i2 ltac:(destruct a1; eexists; reflexivity).
    call_dispose i3 ltac:(destruct a1; eexists; reflexivity).
    call_dispose i4 ltac:(destruct a1; eexists; reflexivity).
    call_dispose i5 ltac:(destruct a1; eexists; reflexivity).
    call_dispose i6 ltac:(destruct a1; eexists; reflexivity).
    destruct a1 as [a1 | ]; cbn; [ | exists []; reflexivity ].
    destruct (Signal_prototype_dispose a1) as [? | ]; cbn;
      [ | eexists; reflexivity ].
    call_dispose a2 ltac:(eexists; reflexivity).
    call_dispose a3 ltac:(eexists; reflexivity).
    exists []. reflexivity.
  - destruct a1 as [a1 | ]; cbn; [ | exists []; reflexivity ].
    destruct (Signal_prototype_dispose a1) as [? | ]; cbn;
      [ | eexists; reflexivity ].
    call_dispose a2 ltac:(eexists; reflexivity).
    call_dispose a3 ltac:(eexists; reflexivity).
    exists []. reflexivity.
Qed.


(** X13: as long as [dispose()] returns, [destroy()] returns exactly when
    every member it goes through is a signal: it faults on a fixed member
    that is [null], and on a group whose first member is there and one of
    whose other members is [null]; a group whose first member is [null] is
    passed over, whatever its other members hold. *)
Theorem destroy_returns_iff_members_there (h : Events.t) :
  (forall s, Signal_prototype_dispose s <> None) ->
  returned (destroy h)
  = forallb (fun m => Events.truthy m h) (Events.disposed_members h).
Proof.
  intros D.
  destruct h as [p s1 s2 s3 s4 s5 i1 i2 i3 i4 i5 i6 a1 a2 a3].
  unfold Events.destroy, Events.disposed_members. cbn.
  call_dispose s1 ltac:(reflexivity || (exfalso; eapply D; eassumption)).
  call_dispose s2 ltac:(reflexivity || (exfalso; eapply D; eassumption)).
  call_dispose s3 ltac:(reflexivity || (exfalso; eapply D; eassumption)).
  call_dispose s4 ltac:(reflexivity || (exfalso; eapply D; eassumption)).
  call_dispose s5 ltac:(reflexivity || (exfalso; eapply D; eassumption)).
  destruct i1 as [i1 | ]; cbn.
  - destruct (Signal_prototype_dispose i1) as [? | ] eqn:?; cbn;
      [ | exfalso; eapply D; eassumption ].
    call_dispose i2 ltac:(reflexivity || (exfalso; eapply D; eassumption)).
    call_dispose i3 ltac:(reflexivity || (exfalso; eapply D; eassumption)).
    call_dispose i4 ltac:(reflexivity || (exfalso; eapply D; eassumption)).
    call_dispose i5 ltac:(reflexivity || (exfalso; eapply D; eassumption)).
    call_dispose i6 ltac:(reflexivity || (exfalso; eapply D; eassumption)).
    destruct a1 as [a1 | ]; cbn; [ | reflexivity ].
    destruct (Signal_prototype_dispose a1) as [? | ] eqn:?; cbn;
      [ | exfalso; eapply D; eassumption ].
    call_dispose a2 ltac:(reflexivity || (exfalso; eapply D; eassumption)).
    call_dispose a3 ltac:(reflexivity || (exfalso; eapply D; eassumption)).
    reflexivity.
  - destruct a1 as [a1 | ]; cbn; [ | reflexivity ].
    destruct (Signal_prototype_dispose a1) as [? | ] eqn:?; cbn;
      [ | exfalso; eapply D; eassumption ].
    call_dispose a2 ltac:(reflexivity || (exfalso; eapply D; eassumption)).
    call_dispose a3 ltac:(reflexivity || (exfalso; eapply D; eassumption)).
    reflexivity.
Qed.

(** X14: [destroy()] sets [parent] to [null] and sets no member to [null]:
    a member it went through holds the signal as [dispose()] left it, and
    every other member holds what it held. *)
Theorem destroy_keeps_members (h h' : Events.t) (calls : list call) :
  destroy h = Returns h' calls ->
  Events.parent h' = JS.Null
  /\ forall m,
       (In m (Events.disposed_members h)
        /\ exists s s',
             Events.get m h = Some s
             /\ Signal_prototype_dispose s = Some s'
             /\ Events.get m h' = Some s')
       \/ (~ In m (Events.disposed_members h)
           /\ Events.get m h' = Events.get m h).
Proof.
  intros H.
  destruct h as [p s1 s2 s3 s4 s5 i1 i2 i3 i4 i5 i6 a1 a2 a3].
  unfold Events.destroy in H. cbn in H.
  called_dispose s1 H. called_dispose s2 H. called_dispose s3 H.
  called_dispose s4 H. called_dispose s5 H.
  destruct i1 as [i1 | ]; cbn in H;
    [ destruct (Signal_prototype_dispose i1) as [? | ] eqn:?; cbn in H;
      [ | discriminate H ];
      called_dispose i2 H; called_dispose i3 H; called_dispose i4 H;
      called_dispose i5 H; called_dispose i6 H
    | ];
    (destruct a1 as [a1 | ]; cbn in H;
     [ destruct (Signal_prototype_dispose a1) as [? | ] eqn:?; cbn in H;
       [ | discriminate H ];
       called_dispose a2 H; called_dispose a3 H
     | ]);
    injection H as <- <-; (split; [ reflexivity | ]);
    intros []; cbn;
    first [ left; split; [ tauto | do 2 eexists; repeat split; eassumption ]
          | right; split; [ intuition discriminate | reflexivity ] ].
Qed.

(** X15: a new hub, destroyed: [destroy()] disposes of the five fixed
    signals, in the order in which the constructor made them, and of
    nothing else; it leaves them in place, [parent] [null] and the optional
    members [null].  If [dispose()] throws on a new signal, the first call
    is the fault. *)
Theorem constructor_then_destroy (sprite : JS.value) :
  match Signal_prototype_dispose Signal.new with
  | Some s' =>
      destroy (Events.constructor sprite)
      = Returns
          (Events.mk JS.Null (Some s') (Some s') (Some s') (Some s') (Some s')
             None None None None None None None None None)
          (map Signal_dispose Events.fixed_members)
  | None =>
      destroy (Events.constructor sprite)
      = Throws (Thrown (Signal_dispose Member.onAddedToGroup))
          [Signal_dispose Member.onAddedToGroup]
  end.
Proof.
  unfold Events.destroy, Events.constructor, Events.dispose. cbn.
  destruct (Signal_prototype_dispose Signal.new) as [s' | ] eqn:E; cbn;
    repeat (rewrite E; cbn); reflexivity.
Qed.

(** X16: whether [destroy()] may be repeated is up to the signals.  On a
    hub that went through [destroy()], a second call makes the same calls
    and returns if [dispose()] returns on a signal it has returned on
    before; it faults in its first call, [onAddedToGroup.dispose()], if
    [dispose()] throws on such a signal. *)
Theorem destroy_again (h h' : Events.t) (calls : list call) :
  destroy h = Returns h' calls ->
  ((forall s s', Signal_prototype_dispose s = Some s' ->
                 Signal_prototype_dispose s' <> None) ->
   exists h'', destroy h' = Returns h'' calls)
  /\ ((forall s s', Signal_prototype_dispose s = Some s' ->
                    Signal_prototype_dispose s' = None) ->
      destroy h'
      = Throws (Thrown (Signal_dispose Member.onAddedToGroup))
          [Signal_dispose Member.onAddedToGroup]).
Proof.
  intros H.
  destruct h as [p s1 s2 s3 s4 s5 i1 i2 i3 i4 i5 i6 a1 a2 a3].
  unfold Events.destroy in H. cbn in H.
  called_dispose s1 H. called_dispose s2 H. called_dispose s3 H.
  called_dispose s4 H. called_dispose s5 H.
  destruct i1 as [i1 | ]; cbn in H;
    [ destruct (Signal_prototype_dispose i1) as [? | ] eqn:?; cbn in H;
      [ | discriminate H ];
      called_dispose i2 H; called_dispose i3 H; called_dispose i4 H;
      called_dispose i5 H; called_dispose i6 H
    | ];
    (destruct a1 as [a1 | ]; cbn in H;
     [ destruct (Signal_prototype_dispose a1) as [? | ] eqn:?; cbn in H;
       [ | discriminate H ];
       called_dispose a2 H; called_dispose a3 H
     | ]);
    injection H as <- <-; unfold Events.destroy; cbn; split; intros Again;
    repeat match goal with
           | E : Signal_prototype_dispose ?s = Some ?s' |- _ =>
               pose proof (Again s s' E); clear E
           end.
  all: try solve [ repeat match goal with
                          | N : Signal_prototype_dispose _ = None |- _ =>
                              rewrite N; clear N; cbn
                          end; reflexivity ].
  all: repeat match goal with
              | N : Signal_prototype_dispose ?s' <> None |- _ =>
                  destruct (Signal_prototype_dispose s') eqn:?;
                  [ clear N | exfalso; apply N; reflexivity ]
              end;
       cbn;
       repeat match goal with
              | E : Signal_prototype_dispose _ = Some _ |- _ =>
                  rewrite E; cbn
              end;
       eexists; reflexivity.
Qed.

End EventsDestroyMore.

(** The hub with both groups, its [onInputOut] missing: [destroy()] faults. *)
Lemma destroy_returns_iff_members_there_witness :
  returned (Events.destroy Examples.dispose
              (Events.set Member.onInputOut None Examples.hub_full))
  = false
  /\ returned (Events.destroy Examples.dispose
                 (Events.set Member.onInputOver None Examples.hub_full))
     = true.
Proof.
  assert (D : forall s : Signal.t, Examples.dispose s <> None)
    by (intros s; discriminate).
  split.
  - exact (destroy_returns_iff_members_there Examples.dispose
             (Events.set Member.onInputOut None Examples.hub_full) D).
  - exact (destroy_returns_iff_members_there Examples.dispose
             (Events.set Member.onInputOver None Examples.hub_full) D).
Defined.

(** The bare hub, destroyed: [parent] is [null], the members are there. *)
Lemma destroy_keeps_members_witness :
  exists h' calls,
    Events.destroy Examples.dispose Examples.hub = Returns h' calls
    /\ Events.parent h' = JS.Null.
Proof.
  do 2 eexists. split; [ reflexivity | ].
  exact (proj1 (destroy_keeps_members Examples.dispose Examples.hub eq_refl)).
Defined.

(** The hub with both groups, destroyed twice, with signals that may be
    disposed of twice and with signals that may not. *)
Lemma destroy_again_witness :
  (exists h' h'' calls,
     Events.destroy Examples.dispose Examples.hub_full = Returns h' calls
     /\ Events.destroy Examples.dispose h' = Returns h'' calls)
  /\ (exists h' calls,
        Events.destroy Examples.dispose_once Examples.hub_full
        = Returns h' calls
        /\ Events.destroy Examples.dispose_once h'
           = Throws (Thrown (Signal_dispose Member.onAddedToGroup))
               [Signal_dispose Member.onAddedToGroup]).
Proof.
  split.
  - destruct (proj1 (destroy_again Examples.dispose Examples.hub_full eq_refl))
      as [h'' H].
    + intros s s' _. discriminate.
    + do 3 eexists. split; [ reflexivity | exact H ].
  - do 2 eexists. split; [ reflexivity | ].
    apply (proj2 (destroy_again Examples.dispose_once Examples.hub_full
                    eq_refl)).
    intros [[ | ]] s' E; cbn in E; [ discriminate E | ].
    injection E as <-. reflexivity.
Defined.

(** ** The position and the dirty flag *)

(** X17: on a text that exists, [update()] writes the position exactly when
    it sets the dirty flag: a text that comes out dirty is at
    ([this.x], [this.y]), a text that does not is where it was, and in both
    cases the cache holds [this.x] and [this.y]. *)
Theorem update_position_iff_dirty
    StringToNumber ToPrimitive (n : Text.t) :
  Text.exists_ n = true ->
  let n' := Text.update StringToNumber ToPrimitive n in
  Text.position n'
  = (if Cache.dirty (Text._cache n')
     then Point.mk (Text.x n) (Text.y n)
     else Text.position n)
  /\ Cache.x (Text._cache n') = Text.x n
  /\ Cache.y (Text._cache n') = Text.y n.
Proof.
  intros E. cbv zeta. rewrite (update_exists _ _ n E). cbv zeta.
  destruct (JS.loose_neq StringToNumber ToPrimitive
              (Point.x (Text.position n)) (Text.x n)
            || JS.loose_neq StringToNumber ToPrimitive
                 (Point.y (Text.position n)) (Text.y n));
    repeat split.
Qed.

(** [hi.position.x = 50; hi.update()]: the text is dirty and back at
    (10, 20). *)
Lemma update_position_iff_dirty_witness :
  Text.position
    (Text.update Examples.StringToNumber Examples.ToPrimitive
       (Text.set_position
          (Point.set_x (JS.Number 50%float) (Text.position Examples.hi))
          Examples.hi))
  = Point.mk (JS.Number 10%float) (JS.Number 20%float).
Proof.
  exact (proj1 (update_position_iff_dirty Examples.StringToNumber
                  Examples.ToPrimitive
                  (Text.set_position
                     (Point.set_x (JS.Number 50%float)
                        (Text.position Examples.hi))
                     Examples.hi)
                  eq_refl)).
Defined.

(** ** The [angle] property: degrees to radians and back *)

Section Binary64.

Local Open Scope Z_scope.

Lemma digits2_pos_bounds (p : positive) :
  2 ^ (Zpos (digits2_pos p) - 1) <= Zpos p < 2 ^ Zpos (digits2_pos p).
Proof.
  induction p as [p IH | p IH | ]; cbn [digits2_pos].
  - rewrite Pos2Z.inj_succ, Z.pow_succ_r by lia.
    replace (Z.succ (Zpos (digits2_pos p)) - 1)
      with (Z.succ (Zpos (digits2_pos p) - 1)) by lia.
    rewrite Z.pow_succ_r by lia. lia.
  - rewrite Pos2Z.inj_succ, Z.pow_succ_r by lia.
    replace (Z.succ (Zpos (digits2_pos p)) - 1)
      with (Z.succ (Zpos (digits2_pos p) - 1)) by lia.
    rewrite Z.pow_succ_r by lia. lia.
  - cbn. lia.
Qed.

Lemma iter_pos_comm {A} (f : A -> A) (p : positive) (x : A) :
  iter_pos f p (f x) = f (iter_pos f p x).
Proof.
  revert x. induction p as [p IH | p IH | ]; intros x; cbn.
  - now rewrite !IH.
  - now rewrite !IH.
  - reflexivity.
Qed.

Lemma iter_pos_succ {A} (f : A -> A) (p : positive) (x : A) :
  iter_pos f (Pos.succ p) x = f (iter_pos f p x).
Proof.
  revert x. induction p as [p IH | p IH | ]; intros x; cbn.
  - rewrite !IH. now rewrite !iter_pos_comm.
  - now rewrite !iter_pos_comm.
  - reflexivity.
Qed.

Lemma shr_1_inv (M k : Z) (mrs : shr_record) :
  0 <= k -> Rounding.shr_inv M k mrs -> Rounding.shr_inv M (k + 1) (shr_1 mrs).
Proof.
  intros K. unfold Rounding.shr_inv.
  replace (k + 1) with (Z.succ k) by lia. rewrite Z.pow_succ_r by lia.
  assert (P : 0 < 2 ^ k) by (apply Z.pow_pos_nonneg; lia).
  destruct mrs as [m r s]. cbn [shr_m shr_r shr_s].
  destruct m as [ | [p | p | ] | p ], r, s; cbn [shr_1 shr_m shr_r shr_s orb];
    try lia; nia.
Qed.

Lemma iter_shr_1_inv (M : Z) (p : positive) :
  forall k mrs,
    0 <= k -> Rounding.shr_inv M k mrs -> Rounding.shr_inv M (k + Zpos p) (iter_pos shr_1 p mrs).
Proof.
  induction p as [ | p IH ] using Pos.peano_ind; intros k mrs K I.
  - cbn [iter_pos]. now apply shr_1_inv.
  - rewrite iter_pos_succ, Pos2Z.inj_succ.
    replace (k + Z.succ (Zpos p)) with (k + Zpos p + 1) by lia.
    apply shr_1_inv; [ lia | ]. now apply IH.
Qed.

Lemma round_nearest_even_inv (M k : Z) (mrs : shr_record) :
  0 <= k -> Rounding.shr_inv M k mrs ->
  let m := round_nearest_even (shr_m mrs) (loc_of_shr_record mrs) in
  shr_m mrs <= m <= shr_m mrs + 1
  /\ 2 * Z.abs (m * 2 ^ k - M) <= 2 ^ k
  /\ (M = shr_m mrs * 2 ^ k -> m = shr_m mrs)
  /\ (k = 0 -> m = M).
Proof.
  intros K [Q [R F]].
  assert (P : 0 < 2 ^ k) by (apply Z.pow_pos_nonneg; lia).
  assert (P0 : k = 0 -> 2 ^ k = 1) by (intros ->; reflexivity).
  destruct mrs as [q r s]. cbn [shr_m shr_r shr_s] in *.
  set (P2 := 2 ^ k) in *.
  destruct r, s; cbn [loc_of_shr_record round_nearest_even];
    try destruct (Z.even q); cbv zeta.
  all: split; [ lia | ].
  all: split; [ lia | ].
  all: split; [ intros; lia | ].
  all: intros K0; specialize (P0 K0); lia.
Qed.

(** The first shift of [binary_round_aux]. *)
Lemma shr_fexp_inv (M : positive) (E : Z) :
  let k := fexp prec emax (Zpos (digits2_pos M) + E) - E in
  0 <= k ->
  exists mrs,
    shr_fexp prec emax (Zpos M) E loc_Exact = (mrs, E + k)
    /\ Rounding.shr_inv (Zpos M) k mrs.
Proof.
  intros k K. unfold shr_fexp. cbn [Zdigits2 shr_record_of_loc]. fold k.
  assert (I0 : Rounding.shr_inv (Zpos M) 0 (Build_shr_record (Zpos M) false false)).
  { unfold Rounding.shr_inv. cbn [shr_m shr_r shr_s]. rewrite Z.pow_0_r. lia. }
  destruct k as [ | p | p ] eqn:Ek; try lia.
  - eexists. split; [ cbn; f_equal; lia | exact I0 ].
  - eexists. split; [ reflexivity | ].
    apply (@iter_shr_1_inv (Zpos M) p 0); [ lia | exact I0 ].
Qed.

Lemma shr_nonpos (mrs : shr_record) (e n : Z) :
  n <= 0 -> shr mrs e n = (mrs, e).
Proof. destruct n; intros; try reflexivity; lia. Qed.

Lemma fexp_64 (x : Z) : fexp prec emax x = Z.max (x - 53) (-1074).
Proof. reflexivity. Qed.

Lemma pow2_pos (a : Z) : 0 <= a -> 0 < 2 ^ a.
Proof. intros; apply Z.pow_pos_nonneg; lia. Qed.

Lemma pow2_lt_inv (a b : Z) : 0 <= b -> 2 ^ a < 2 ^ b -> a < b.
Proof. intros B H. apply (Z.pow_lt_mono_r_iff 2); lia. Qed.

(** What [binary_round_aux] makes of an exact product [M * 2 ^ E] that does
    not exceed the largest number: a zero or a finite number, [V'] in units
    of [2 ^ - c], off by at most half a unit in the last place of a normal
    number, or by half of [2 ^ -1074]. *)
Lemma binary_round_aux_value (s : bool) (M : positive) (E c : Z) :
  53 <= Zpos (digits2_pos M) ->
  0 <= E + c -> 1075 <= c ->
  Zpos M * 2 ^ (E + c) <= (2 ^ 53 - 1) * 2 ^ (971 + c) ->
  exists V',
    (binary_round_aux prec emax s (Zpos M) E loc_Exact = S754_zero s
     /\ V' = 0
     \/ exists m e,
          binary_round_aux prec emax s (Zpos M) E loc_Exact
          = S754_finite s m e
          /\ 0 <= e + c /\ V' = Zpos m * 2 ^ (e + c))
    /\ (2 ^ 53 * Z.abs (V' - Zpos M * 2 ^ (E + c)) <= Zpos M * 2 ^ (E + c)
        \/ 2 * Z.abs (V' - Zpos M * 2 ^ (E + c)) <= 2 ^ (c - 1074)).
Proof.
  intros D EC C Max.
  pose proof (digits2_pos_bounds M) as [Dlo Dhi].
  set (d := Zpos (digits2_pos M)) in *.
  pose proof (shr_fexp_inv M E) as S1. cbv zeta in S1. fold d in S1.
  rewrite fexp_64 in S1.
  set (k := Z.max (d + E - 53) (-1074) - E) in *.
  assert (K : 0 <= k) by (unfold k; lia).
  destruct (S1 K) as [mrs [Eq1 Inv]]. clear S1.
  pose proof (@round_nearest_even_inv (Zpos M) k mrs K Inv) as R. cbv zeta in R.
  remember (round_nearest_even (shr_m mrs) (loc_of_shr_record mrs))
    as m2 eqn:Hm2.
  destruct R as [[Qlo Qhi] [Err [Exact _]]].
  destruct Inv as [Q0 [[Rlo Rhi] _]].
  set (q := shr_m mrs) in *.
  (* powers *)
  pose proof (@pow2_pos (E + c) EC) as A0. set (A := 2 ^ (E + c)) in *.
  pose proof (@pow2_pos k K) as P0. set (P := 2 ^ k) in *.
  assert (E' : -1074 <= E + k) by (unfold k; lia).
  assert (EkC : 2 ^ (E + k + c) = P * A).
  { replace (E + k + c) with (k + (E + c)) by lia.
    now rewrite Z.pow_add_r by lia. }
  (* the rounded mantissa is at most 2^53 *)
  assert (Dk : d <= 53 + k) by (unfold k; lia).
  assert (Q53 : q < 2 ^ 53).
  { assert (H : 2 ^ d <= 2 ^ (53 + k)) by (apply Z.pow_le_mono_r; lia).
    rewrite Z.pow_add_r in H by lia. fold P in H. nia. }
  (* the error *)
  assert (ErrV : 2 * Z.abs (m2 * (P * A) - Zpos M * A) <= P * A).
  { replace (m2 * (P * A) - Zpos M * A) with ((m2 * P - Zpos M) * A) by ring.
    rewrite Z.abs_mul, (Z.abs_eq A) by lia. nia. }
  assert (Bound :
            2 ^ 53 * Z.abs (m2 * (P * A) - Zpos M * A) <= Zpos M * A
            \/ 2 * Z.abs (m2 * (P * A) - Zpos M * A) <= 2 ^ (c - 1074)).
  { destruct (Z_le_gt_dec (-1074) (d + E - 53)) as [N | Sub].
    - left. assert (Kd : d - 1 = 52 + k) by (unfold k; lia).
      rewrite Kd, Z.pow_add_r in Dlo by lia. fold P in Dlo.
      assert (2 ^ 52 * (P * A) <= Zpos M * A) by nia.
      change (2 ^ 53) with (2 ^ 52 * 2). lia.
    - right. replace (c - 1074) with (E + k + c) by (unfold k; lia).
      now rewrite EkC. }
  (* no overflow *)
  assert (Fit : 0 < m2 -> E + k <= 971 /\ (E + k = 971 -> m2 < 2 ^ 53)).
  { intros M2.
    destruct (Z_le_gt_dec (-1074) (d + E - 53)) as [N | Sub];
      [ | unfold k; split; intros; lia ].
    assert (Kd : k = d - 53) by (unfold k; lia).
    assert (Lt : 2 ^ (d - 1 + (E + c)) < 2 ^ (1024 + c)).
    { rewrite Z.pow_add_r by lia. fold A.
      replace (1024 + c) with (53 + (971 + c)) by lia.
      rewrite (Z.pow_add_r 2 53) by lia.
      assert (0 < 2 ^ (971 + c)) by (apply pow2_pos; lia). nia. }
    apply pow2_lt_inv in Lt; [ | lia ].
    split; [ lia | ]. intros Top.
    assert (T : 2 ^ (971 + c) = P * A).
    { rewrite <- EkC. f_equal. lia. }
    rewrite T in Max.
    assert (Zpos M <= (2 ^ 53 - 1) * P) by nia. nia. }
  (* the second shift *)
  unfold binary_round_aux. rewrite Eq1. fold q. rewrite <- Hm2.
  unfold shr_fexp. rewrite fexp_64. cbn [shr_record_of_loc].
  clear Hm2. destruct m2 as [ | p2 | p2 ]; [ | | lia ].
  - (* the product rounds to zero *)
    exists 0. cbn [Zdigits2]. rewrite shr_nonpos by lia. cbn [shr_m].
    split; [ left; split; reflexivity | ].
    replace (0 - Zpos M * A) with (0 * (P * A) - Zpos M * A) by ring.
    exact Bound.
  - exists (Zpos p2 * (P * A)). cbn [Zdigits2].
    destruct (Fit ltac:(lia)) as [F971 Ftop].
    pose proof (digits2_pos_bounds p2) as [D2lo D2hi].
    set (d2 := Zpos (digits2_pos p2)) in *.
    split; [ right | exact Bound ].
    destruct (Z.eq_dec (Zpos p2) (2 ^ 53)) as [Carry | NoCarry].
    + (* the mantissa was rounded up to 2^53 *)
      assert (p2 = 9007199254740992%positive) as -> by (cbn in Carry; lia).
      subst d2. cbn [digits2_pos Pos.succ].
      replace (Z.max (54 + (E + k) - 53) (-1074) - (E + k)) with 1 by lia.
      cbn [shr iter_pos shr_1 shr_m].
      assert (L : (E + k + 1 <=? emax - prec) = true)
        by (apply Z.leb_le; change (emax - prec) with 971; lia).
      rewrite L. do 2 eexists. split; [ reflexivity | ].
      split; [ lia | ].
      replace (E + k + 1 + c) with (1 + (E + k + c)) by lia.
      rewrite Z.pow_add_r, EkC by lia. change (2 ^ 1) with 2. lia.
    + assert (Zpos p2 < 2 ^ 53) by lia.
      assert (D2 : d2 <= 53).
      { assert (Lt : 2 ^ (d2 - 1) < 2 ^ 53) by lia.
        apply pow2_lt_inv in Lt; lia. }
      rewrite shr_nonpos by lia. cbn [shr_m].
      assert (L : (E + k <=? emax - prec) = true)
        by (apply Z.leb_le; change (emax - prec) with 971; lia).
      rewrite L. do 2 eexists. split; [ reflexivity | ].
      split; [ lia | ]. now rewrite EkC.
Qed.

Lemma Prim2SF_not_nan (f : float) :
  is_nan f = false -> Prim2SF f <> S754_nan.
Proof.
  intros N. unfold Prim2SF. rewrite N.
  destruct (is_zero f); [ discriminate | ].
  destruct (is_infinity f); [ discriminate | ].
  destruct (Z.frexp f) as [r e].
  destruct (shr_fexp _ _ _ _ _) as [mrs e'].
  destruct (shr_m mrs); discriminate.
Qed.

Lemma bounded_inv (m : positive) (e : Z) :
  bounded prec emax m e = true ->
  -1074 <= e <= 971 /\ Zpos m < 2 ^ 53.
Proof.
  unfold bounded, canonical_mantissa. intros H.
  apply andb_prop in H. destruct H as [C L].
  apply Z.eqb_eq in C. apply Z.leb_le in L.
  rewrite fexp_64 in C. change (emax - prec) with 971 in L.
  pose proof (digits2_pos_bounds m) as [_ Hi].
  assert (Zpos (digits2_pos m) <= 53) by lia.
  assert (2 ^ Zpos (digits2_pos m) <= 2 ^ 53) by (apply Z.pow_le_mono_r; lia).
  lia.
Qed.

(** A product with a 53-bit constant has at least 53 bits. *)
Lemma digits2_pos_mul (m k : positive) :
  2 ^ 52 <= Zpos k -> 53 <= Zpos (digits2_pos (m * k)).
Proof.
  intros K. pose proof (digits2_pos_bounds (m * k)) as [_ Hi].
  rewrite Pos2Z.inj_mul in Hi.
  assert (Lt : 2 ^ 52 < 2 ^ Zpos (digits2_pos (m * k))) by nia.
  apply pow2_lt_inv in Lt; lia.
Qed.

(** The product of a finite number by a positive 53-bit constant below one
    half ulp of the smallest exponent: [X] and [T] are the product and the
    number in units of [2 ^ -1074]. *)
Lemma SF64mul_const (s : bool) (m : positive) (e : Z) (mk : positive) (ek : Z) :
  let x := SF64mul (S754_finite s m e) (S754_finite false mk ek) in
  let T := Zpos m * 2 ^ (e + 1074) in
  bounded prec emax m e = true ->
  2 ^ 52 <= Zpos mk ->
  ek <= -1 ->
  valid_binary x = true ->
  T * Zpos mk <= (2 ^ 53 - 1) * 2 ^ (971 + (1074 - ek)) ->
  exists X,
    (x = S754_zero s /\ X = 0
     \/ exists m' e',
          x = S754_finite s m' e'
          /\ bounded prec emax m' e' = true
          /\ X = Zpos m' * 2 ^ (e' + 1074))
    /\ (2 ^ 53 * Z.abs (X * 2 ^ (- ek) - T * Zpos mk) <= T * Zpos mk
        \/ 2 * Z.abs (X * 2 ^ (- ek) - T * Zpos mk) <= 2 ^ (- ek)).
Proof.
  intros x T B K EK V Max.
  destruct (@bounded_inv m e B) as [Be Bm].
  assert (Ex : x = binary_round_aux prec emax s (Zpos (m * mk)) (e + ek) loc_Exact).
  { unfold x, SF64mul, SFmul. now rewrite xorb_false_r. }
  destruct (@binary_round_aux_value s (m * mk) (e + ek) (1074 - ek))
    as [V' [Res Err]].
  - now apply digits2_pos_mul.
  - lia.
  - lia.
  - replace (e + ek + (1074 - ek)) with (e + 1074) by lia.
    rewrite Pos2Z.inj_mul. fold T. lia.
  - replace (e + ek + (1074 - ek)) with (e + 1074) in * by lia.
    rewrite Pos2Z.inj_mul in Err.
    replace (Zpos m * Zpos mk * 2 ^ (e + 1074)) with (T * Zpos mk) in Err
      by (unfold T; ring).
    replace (1074 - ek - 1074) with (- ek) in Err by lia.
    rewrite <- Ex in Res.
    destruct Res as [[Z0 ->] | [m' [e' [F [_ ->]]]]].
    + exists 0. split; [ left; split; [ exact Z0 | reflexivity ] | ].
      exact Err.
    + exists (Zpos m' * 2 ^ (e' + 1074)).
      assert (B' : bounded prec emax m' e' = true)
        by (rewrite F in V; exact V).
      destruct (@bounded_inv m' e' B') as [Be' _].
      replace (e' + (1074 - ek)) with (e' + 1074 + - ek) in Err by lia.
      rewrite Z.pow_add_r, Z.mul_assoc in Err by lia.
      split; [ right; do 2 eexists; repeat split; eassumption | exact Err ].
Qed.

Lemma Prim2SF_degreeToRadiansFactor : Prim2SF Math.degreeToRadiansFactor = Math.degreeToRadiansFactor_SF.
Proof. vm_compute. reflexivity. Qed.

Lemma Prim2SF_radianToDegreesFactor : Prim2SF Math.radianToDegreesFactor = Math.radianToDegreesFactor_SF.
Proof. vm_compute. reflexivity. Qed.

(** Degrees to radians and back, in [SpecFloat]. *)
Lemma round_trip_SF (f : float) :
  Prim2SF (f * Math.degreeToRadiansFactor * Math.radianToDegreesFactor)%float = SF64mul (SF64mul (Prim2SF f) Math.degreeToRadiansFactor_SF) Math.radianToDegreesFactor_SF.
Proof.
  now rewrite !mul_spec, Prim2SF_degreeToRadiansFactor,
    Prim2SF_radianToDegreesFactor.
Qed.

(** Degrees to radians and back is within tolerance of the degrees, for
    every number: the two roundings cost half a unit in the last place each,
    or half of [2 ^ -1074] where the product is subnormal, and the product
    of the two factors is 1 + 0.16 * 2 ^ -53. *)
Lemma round_trip_within_tolerance (f : float) :
  is_nan f = false -> Math.within_tolerance (f * Math.degreeToRadiansFactor * Math.radianToDegreesFactor)%float f = true.
Proof.
  intros N. unfold Math.within_tolerance.
  pose proof (Prim2SF_valid f) as Vf.
  pose proof (Prim2SF_valid (f * Math.degreeToRadiansFactor)%float) as Vr.
  pose proof (Prim2SF_valid (f * Math.degreeToRadiansFactor * Math.radianToDegreesFactor)%float) as Va.
  rewrite round_trip_SF in *.
  rewrite mul_spec, Prim2SF_degreeToRadiansFactor in Vr.
  pose proof (Prim2SF_not_nan f N) as NN.
  destruct (Prim2SF f) as [s | s | | s m e].
  - destruct s; reflexivity.
  - destruct s; reflexivity.
  - now contradiction NN.
  - clear NN. cbn [valid_binary] in Vf.
    destruct (@bounded_inv m e Vf) as [Be Bm].
    set (T := Zpos m * 2 ^ (e + 1074)).
    assert (T0 : 0 < T).
    { unfold T. assert (0 < 2 ^ (e + 1074)) by (apply pow2_pos; lia). nia. }
    set (U := 2 ^ 2045).
    assert (TU : T <= (2 ^ 53 - 1) * U).
    { unfold T, U.
      assert (2 ^ (e + 1074) <= 2 ^ 2045) by (apply Z.pow_le_mono_r; lia).
      assert (0 < 2 ^ (e + 1074)) by (apply pow2_pos; lia). nia. }
    assert (U0 : 0 < U) by (apply pow2_pos; lia).
    destruct (Z_le_gt_dec T ((2 ^ 53 - 3) * U)) as [Low | Top].
    + (* all but the two largest numbers of each sign *)
      destruct (@SF64mul_const s m e 5030569068109113 (-58) Vf)
        as [R [ResR ErrR]]; try (cbn; lia); try exact Vr.
      { fold T. replace (971 + (1074 - -58)) with (2045 + 58) by lia.
        rewrite Z.pow_add_r by lia. fold U. lia. }
      fold T in ErrR. change (2 ^ (- -58)) with (2 ^ 58) in ErrR.
      fold Math.degreeToRadiansFactor_SF in ResR.
      destruct ResR as [[Er ->] | [mr [er [Er [Br ->]]]]]; rewrite Er in *.
      * (* the radians underflow to zero *)
        cbn [SF64mul SFmul Math.radianToDegreesFactor_SF xorb Math.SF2Z].
        apply Z.leb_le. destruct s; cbn [cond_Zopp]; fold T; lia.
      * set (R := Zpos mr * 2 ^ (er + 1074)) in *.
        assert (R0 : 0 <= R).
        { unfold R. destruct (@bounded_inv mr er Br).
          assert (0 < 2 ^ (er + 1074)) by (apply pow2_pos; lia). nia. }
        destruct (@SF64mul_const s mr er 8063664102031864 (-47) Br)
          as [A [ResA ErrA]]; try (cbn; lia); try exact Va.
        { fold R. replace (971 + (1074 - -47)) with (2045 + 47) by lia.
          rewrite Z.pow_add_r by lia. fold U. lia. }
        fold R in ErrA. change (2 ^ (- -47)) with (2 ^ 47) in ErrA.
        fold Math.radianToDegreesFactor_SF in ResA.
        destruct ResA as [[-> ->] | [ma [ea [-> [Ba ->]]]]];
          cbn [Math.SF2Z]; apply Z.leb_le;
          destruct s; cbn [cond_Zopp]; fold T; lia.
    + (* the two largest numbers of each sign, by computation *)
      assert (E971 : e = 971).
      { destruct (Z.eq_dec e 971) as [ | Ne ]; [ assumption | exfalso ].
        assert (2 ^ (e + 1074) <= 2 ^ 2044) by (apply Z.pow_le_mono_r; lia).
        assert (U = 2 * 2 ^ 2044) by reflexivity.
        assert (0 < 2 ^ 2044) by (apply pow2_pos; lia).
        unfold T in Top. nia. }
      subst e. change (2 ^ (971 + 1074)) with U in T.
      assert (Mtop : Zpos m = 2 ^ 53 - 2 \/ Zpos m = 2 ^ 53 - 1)
        by (unfold T in Top; nia).
      clear - Mtop. 
      destruct Mtop as [Mt | Mt];
        [ assert (m = 9007199254740990%positive) as -> by (cbn in Mt; lia)
        | assert (m = 9007199254740991%positive) as -> by (cbn in Mt; lia) ];
        destruct s; vm_compute; reflexivity.
Qed.

End Binary64.

(** C8, as the code has it: for every text and every number of degrees
    other than [NaN], reading [angle] after setting it gives a number within
    floating-point tolerance of the degrees that were set: the product of
    the degrees by the two factors, whatever the text is and holds.  The
    degrees may be [+0], [-0], subnormal, as large as binary64 goes, or
    infinite. *)
Theorem angle_round_trip
    StringToNumber ToPrimitive (n : Text.t) (degrees : float) :
  is_nan degrees = false ->
  let read :=
    (degrees * Math.degreeToRadiansFactor * Math.radianToDegreesFactor)%float in
  Text.get_angle (Math.radToDeg StringToNumber ToPrimitive)
    (Text.set_angle (Math.degToRad StringToNumber ToPrimitive)
       (JS.Number degrees) n)
  = JS.Number read
  /\ Math.within_tolerance read degrees = true.
Proof.
  intros N. cbv zeta. split.
  - reflexivity.
  - now apply round_trip_within_tolerance.
Qed.

(** [hi.angle = 45; hi.angle] is 45, and so it is with the other angles of
    the spec's list: 0, 90, 180, -90 and 359 come back as they are. *)
Lemma angle_round_trip_witness :
  Text.get_angle (Math.radToDeg Examples.StringToNumber Examples.ToPrimitive)
    (Text.set_angle (Math.degToRad Examples.StringToNumber Examples.ToPrimitive)
       (JS.Number 45%float) Examples.hi)
  = JS.Number 45%float
  /\ Math.within_tolerance 45%float 45%float = true.
Proof.
  exact (angle_round_trip Examples.StringToNumber Examples.ToPrimitive
           Examples.hi 45%float eq_refl).
Defined.

Example angle_round_trip_spec_angles :
  map (fun degrees =>
         Text.get_angle
           (Math.radToDeg Examples.StringToNumber Examples.ToPrimitive)
           (Text.set_angle
              (Math.degToRad Examples.StringToNumber Examples.ToPrimitive)
              (JS.Number degrees) Examples.hi))
      [0%float; 45%float; 90%float; 180%float; (-90)%float; 359%float]
  = map JS.Number
      [0%float; 45%float; 90%float; 180%float; (-90)%float; 359%float].
Proof. reflexivity. Qed.

(** Not every angle comes back as it is: 3 comes back one unit in the last
    place above, which is within tolerance. *)
Example angle_round_trip_3 :
  Text.get_angle (Math.radToDeg Examples.StringToNumber Examples.ToPrimitive)
    (Text.set_angle (Math.degToRad Examples.StringToNumber Examples.ToPrimitive)
       (JS.Number 3%float) Examples.hi)
  = JS.Number 0x1.8000000000001p+1%float
  /\ Math.within_tolerance 0x1.8000000000001p+1%float 3%float = true
  /\ JS.strict_eq (JS.Number 0x1.8000000000001p+1%float) (JS.Number 3%float)
     = false.
Proof. repeat split. Qed.

(** C8 fails as it is worded.  [hi.angle = 0 / 0; hi.angle] is [NaN], which
    is within tolerance of nothing and equal to nothing, [NaN] included. *)
Lemma angle_round_trip_NaN :
  (forall StringToNumber ToPrimitive,
     Text.get_angle (Math.radToDeg StringToNumber ToPrimitive)
       (Text.set_angle (Math.degToRad StringToNumber ToPrimitive)
          JS.NaN Examples.hi)
     = JS.NaN)
  /\ Math.within_tolerance nan nan = false
  /\ JS.strict_eq JS.NaN JS.NaN = false.
Proof.
  repeat split.
Qed.
